(** * HOSIT: the SimpleController class (src/class/simplecontroller.js)

    A shallow embedding of the controller that connects an identity with the
    helper functions of [include/functions] and with Puppeteer, and the
    properties of it that the specification states.

    The controller is a JavaScript object whose methods are [async]: each one
    assigns fields of [this] and calls out to the driver (a function of the
    [Functions] module, or a method of a page, frame or element handle).  The
    embedding writes a method body as a program over these effects, keeps
    the object as a finite map from field names to values, and runs a
    program by threading the object and the log of driver calls; the driver's
    answers come from an environment. *)

From Stdlib Require Import QArith.
From stdpp Require Import gmap strings list fin_maps.

Local Set Warnings "-register-all".
Local Open Scope string_scope.
Local Open Scope list_scope.

(** ** Values *)

(** JavaScript values, as far as the controller handles them.  Pages, frames,
    element handles and the browser are host objects of the driver, known by
    identity only. *)
Inductive Value : Type :=
| VUndefined
| VNull
| VBool (b : bool)
| VNum (q : Q)
| VStr (s : string)
| VHost (id : nat)
| VArr (items : list Value)
| VObj (fields : list (string * Value))
| VClass (name : string)
| VModule (path : string).

(** An error object, identified by its name ([TypeError], [RangeError], or
    whatever the driver throws). *)
Inductive Error : Type :=
| Err (name : string).

Definition TypeError : Error := Err "TypeError".
Definition RangeError : Error := Err "RangeError".
Definition ReferenceError : Error := Err "ReferenceError".

(** The outcome of evaluating an expression or of awaiting a promise: a value
    (the promise is fulfilled) or a thrown error (it is rejected). *)
Inductive Res (A : Type) : Type :=
| Ok (a : A)
| Throw (e : Error).
Arguments Ok {A} a.
Arguments Throw {A} e.

(** A call that leaves the controller: [Functions.name(args)] or
    [receiver.name(args)]. *)
Inductive Call : Type :=
| Func (name : string) (args : list Value)
| Method (receiver : Value) (name : string) (args : list Value).

(** ** Operators *)

(** [x == null]: true of [null] and of [undefined]. *)
Definition loose_null (v : Value) : bool :=
  match v with
  | VUndefined | VNull => true
  | _ => false
  end.

(** [x === null]. *)
Definition strict_null (v : Value) : bool :=
  match v with
  | VNull => true
  | _ => false
  end.

(** A default parameter value replaces a missing or [undefined] argument. *)
Definition dflt (v d : Value) : Value :=
  match v with
  | VUndefined => d
  | _ => v
  end.

(** ToBoolean. *)
Definition truthy (v : Value) : bool :=
  match v with
  | VUndefined | VNull => false
  | VBool b => b
  | VNum q => negb (Qeq_bool q 0)
  | VStr s => negb (String.eqb s "")
  | _ => true
  end.

Fixpoint assoc (k : string) (l : list (string * Value)) : Value :=
  match l with
  | [] => VUndefined
  | (k', v) :: l' => if String.eqb k k' then v else assoc k l'
  end.

(** [o.k] for a value [o] that is not [this]: reading a property of
    [undefined] or [null] throws, a plain object gives the property or
    [undefined], and no other value the controller reads a property from has
    own properties in this model. *)
Definition prop (o : Value) (k : string) : Res Value :=
  match o with
  | VUndefined | VNull => Throw TypeError
  | VObj fields => Ok (assoc k fields)
  | _ => Ok VUndefined
  end.

(** ** Method bodies *)

(** The body of an (async) method: it returns or throws, reads or assigns a
    field of [this], awaits a driver call, makes a driver call without
    awaiting it, or awaits [Promise.all] of the promises of several bodies
    started one after the other. *)
Inductive Prog : Type :=
| Ret (r : Res Value)
| Get (f : string) (k : Value -> Prog)
| Put (f : string) (v : Value) (k : Prog)
| Await (c : Call) (k : Res Value -> Prog)
| Fire (c : Call) (k : Prog)
| All (ps : list Prog) (k : Res Value -> Prog).

(** Sequencing: an error thrown by the first part skips the rest. *)
Fixpoint bind (p : Prog) (f : Value -> Prog) : Prog :=
  match p with
  | Ret (Ok v) => f v
  | Ret (Throw e) => Ret (Throw e)
  | Get x k => Get x (fun v => bind (k v) f)
  | Put x v k => Put x v (bind k f)
  | Await c k => Await c (fun r => bind (k r) f)
  | Fire c k => Fire c (bind k f)
  | All ps k => All ps (fun r => bind (k r) f)
  end.

Declare Scope prog_scope.
Delimit Scope prog_scope with prog.
Bind Scope prog_scope with Prog.
Notation "x ← y ; z" := (bind y (fun x => z))
  (at level 20, y at level 100, z at level 200, only parsing) : prog_scope.
Notation "y ;; z" := (bind y (fun _ => z))
  (at level 100, z at level 200, only parsing, right associativity) : prog_scope.
Local Open Scope prog_scope.

Definition undefined : Value := VUndefined.
Definition null : Value := VNull.
Definition vtrue : Value := VBool true.
Definition vfalse : Value := VBool false.
Definition vnum (z : Z) : Value := VNum (inject_Z z).

(** [return v]. *)
Definition ret (v : Value) : Prog := Ret (Ok v).

(** [throw e]. *)
Definition throw (e : Error) : Prog := Ret (Throw e).

(** [this.f]. *)
Definition get (f : string) : Prog := Get f ret.

(** [this.f = v]. *)
Definition set (f : string) (v : Value) : Prog := Put f v (ret undefined).

(** [await c], the rejection of the awaited promise being thrown. *)
Definition await (c : Call) : Prog := Await c Ret.

(** [await Functions.name(args)]. *)
Definition Functions (name : string) (args : list Value) : Prog :=
  await (Func name args).

(** [await o.name(args)]: calling a method of [undefined] or [null] throws a
    TypeError before anything reaches the driver. *)
Definition invoke (o : Value) (name : string) (args : list Value) : Prog :=
  if loose_null o then throw TypeError else await (Method o name args).

(** [o.name(args)] without [await]: the call is made, its promise dropped.
    A receiver that is neither [undefined] nor [null] is taken to have the
    method. *)
Definition invoke_detached (o : Value) (name : string) (args : list Value) : Prog :=
  if loose_null o then throw TypeError else Fire (Method o name args) (ret undefined).

(** [await Promise.all([...])]. *)
Definition Promise_all (ps : list Prog) : Prog := All ps Ret.

(** ** Running a body *)

(** The environment of a run: how the driver settles the promise of a call,
    given the calls made so far, and how many nested calls the stack holds. *)
Record Env : Type := mkEnv {
  driver : list Call -> Call -> Res Value;
  stack : nat
}.

(** The controller object and the log of driver calls, oldest first. *)
Record St : Type := mkSt {
  this : gmap string Value;
  trace : list Call
}.

(** A field never assigned reads as [undefined]. *)
Definition field (s : St) (f : string) : Value :=
  default VUndefined (this s !! f).

Definition assign (f : string) (v : Value) (s : St) : St :=
  mkSt (<[f := v]> (this s)) (trace s).

Definition log (c : Call) (s : St) : St :=
  mkSt (this s) (trace s ++ [c]).

(** What [Promise.all] settles to, from the outcomes of its promises in the
    order in which they settled: the first rejection, or else the array of
    the values. *)
Fixpoint all_outcome (rs : list (Res Value)) : Res (list Value) :=
  match rs with
  | [] => Ok []
  | Throw e :: _ => Throw e
  | Ok v :: rs' =>
      match all_outcome rs' with
      | Ok vs => Ok (v :: vs)
      | Throw e => Throw e
      end
  end.

Definition all_result (rs : list (Res Value)) : Res Value :=
  match all_outcome rs with
  | Ok vs => Ok (VArr vs)
  | Throw e => Throw e
  end.

Definition M : Type := Env -> St -> Res Value * St.

(** Letting started bodies finish, one after the other. *)
Fixpoint finish (env : Env) (rests : list M) (s : St) : list (Res Value) * St :=
  match rests with
  | [] => ([], s)
  | rest :: rests' =>
      let '(r, s') := rest env s in
      let '(rs, s'') := finish env rests' s' in
      (r :: rs, s'')
  end.

(** [exec p] runs a body to its end, every awaited promise being settled by
    the driver when the body reaches it.  [start p] runs a body the way a
    call of an async method does: up to its first [await], whose call is
    made, and gives back the rest of the body, to be run when the promise
    settles.  [Promise.all] starts its bodies in the order of the array and
    then lets them finish in that order. *)
Fixpoint exec (p : Prog) : M :=
  match p with
  | Ret r => fun _ s => (r, s)
  | Get f k => fun env s => exec (k (field s f)) env s
  | Put f v k => fun env s => exec k env (assign f v s)
  | Await c k => fun env s =>
      let s' := log c s in exec (k (driver env (trace s') c)) env s'
  | Fire c k => fun env s => exec k env (log c s)
  | All ps k => fun env s =>
      let '(rests, s1) :=
        (fix starts (ps : list Prog) (s : St) : list M * St :=
           match ps with
           | [] => ([], s)
           | p :: ps' =>
               let '(rest, s') := start p env s in
               let '(rests, s'') := starts ps' s' in
               (rest :: rests, s'')
           end) ps s in
      let '(rs, s2) := finish env rests s1 in
      exec (k (all_result rs)) env s2
  end
with start (p : Prog) : Env -> St -> M * St :=
  match p with
  | Ret r => fun _ s => ((fun _ s' => (r, s')), s)
  | Get f k => fun env s => start (k (field s f)) env s
  | Put f v k => fun env s => start k env (assign f v s)
  | Await c k => fun _ s =>
      ((fun env' s' => exec (k (driver env' (trace s') c)) env' s'), log c s)
  | Fire c k => fun env s => start k env (log c s)
  | All ps k => fun env s =>
      let '(rests, s1) :=
        (fix starts (ps : list Prog) (s : St) : list M * St :=
           match ps with
           | [] => ([], s)
           | p :: ps' =>
               let '(rest, s') := start p env s in
               let '(rests, s'') := starts ps' s' in
               (rest :: rests, s'')
           end) ps s in
      ((fun env' s' =>
          let '(rs, s2) := finish env' rests s' in
          exec (k (all_result rs)) env' s2), s1)
  end.

(** Starting the bodies of an array, first to last. *)
Fixpoint starts (env : Env) (ps : list Prog) (s : St) : list M * St :=
  match ps with
  | [] => ([], s)
  | p :: ps' =>
      let '(rest, s') := start p env s in
      let '(rests, s'') := starts env ps' s' in
      (rest :: rests, s'')
  end.

(** ** The class SimpleController *)

Module SimpleController.

(** [const Puppeteer = require('puppeteer')]. *)
Definition Puppeteer : Value := VModule "puppeteer".

(** [constructor(identity, endpoint = null)]. *)
Definition constructor (identity endpoint : Value) : Prog :=
  let endpoint := dflt endpoint null in
  set "_identity" identity;;
  set "_endpoint" endpoint;;
  set "_page" null;;
  set "_browser" null.

(** [async init(executablePath = "")]. *)
Definition init (executablePath : Value) : Prog :=
  let executablePath := dflt executablePath (VStr "") in
  endpoint ← get "_endpoint";
  init ← Functions "init" [Puppeteer; endpoint; executablePath];
  page ← Ret (prop init "page");
  set "_page" page;;
  set "_frame" null;;
  page ← Ret (prop init "page");
  set "_pages" (VArr [page]);;
  browser ← Ret (prop init "browser");
  set "_browser" browser.

(** [async focusFrame(url)]. *)
Definition focusFrame (url : Value) : Prog :=
  page ← get "_page";
  frame ← Functions "getFrame" [page; url];
  if negb (loose_null frame) then
    set "_frame" frame;;
    ret vtrue
  else
    ret vfalse.

(** [async focusFrameSelector(selector)]. *)
Definition focusFrameSelector (selector : Value) : Prog :=
  page ← get "_page";
  handle ← invoke page "$" [selector];
  if strict_null handle then
    ret vfalse
  else
    frame ← invoke handle "contentFrame" [];
    set "_frame" frame;;
    frame ← get "_frame";
    ret (VBool (negb (strict_null frame))).

(** [async type(selector = "", text)]: the body calls [this.type], that is
    itself; a call for which the stack has no room left throws a
    RangeError. *)
Fixpoint type (stack : nat) (selector text : Value) : Prog :=
  match stack with
  | O => throw RangeError
  | S stack' =>
      let selector := dflt selector (VStr "") in
      type stack' selector text;;
      ret undefined
  end.

(** [async typeFrame(selector, text)]. *)
Definition typeFrame (selector text : Value) : Prog :=
  frame ← get "_frame";
  element ← invoke frame "$" [selector];
  invoke_detached element "click" [];;
  invoke element "type" [text];;
  ret undefined.

(** [async typeEnter()]. *)
Definition typeEnter : Prog :=
  page ← get "_page";
  Functions "typeEnter" [page];;
  ret undefined.

(** [async typeTab(page)]; the parameter is not used. *)
Definition typeTab (page : Value) : Prog :=
  page ← get "_page";
  Functions "typeTab" [page];;
  ret undefined.

(** [async typeEsc(page)]; the parameter is not used. *)
Definition typeEsc (page : Value) : Prog :=
  page ← get "_page";
  Functions "typeEsc" [page];;
  ret undefined.

(** [async click(selector, delay = true, tap = false, topRight = false,
    doTrigger = false)]. *)
Definition click (selector delay tap topRight doTrigger : Value) : Prog :=
  let delay := dflt delay vtrue in
  let tap := dflt tap vfalse in
  let topRight := dflt topRight vfalse in
  let doTrigger := dflt doTrigger vfalse in
  page ← get "_page";
  invoke page "click" [selector];;
  ret undefined.

(** [async waitForNavigation()]. *)
Definition waitForNavigation : Prog :=
  page ← get "_page";
  invoke page "waitForNavigation" [];;
  ret undefined.

(** [async clickAndWait(selector, delay = true, tap = false,
    topRight = false, doTrigger = false)]: [this.click] is called with the
    selector alone. *)
Definition clickAndWait (selector delay tap topRight doTrigger : Value) : Prog :=
  let delay := dflt delay vtrue in
  let tap := dflt tap vfalse in
  let topRight := dflt topRight vfalse in
  let doTrigger := dflt doTrigger vfalse in
  Promise_all [
    click selector undefined undefined undefined undefined;
    waitForNavigation
  ];;
  ret undefined.

(** [async clickFrame(selector)]. *)
Definition clickFrame (selector : Value) : Prog :=
  frame ← get "_frame";
  element ← invoke frame "$" [selector];
  invoke_detached element "click" [].

(** [async clickFrameAndWait(selector)].  The second promise of the array is
    that of the page's own [waitForNavigation]; a TypeError of that call for
    want of a page is taken as the rejection of the promise. *)
Definition clickFrameAndWait (selector : Value) : Prog :=
  Promise_all [
    clickFrame selector;
    (page ← get "_page"; invoke page "waitForNavigation" [])
  ];;
  ret undefined.

(** [async hover(selector)]. *)
Definition hover (selector : Value) : Prog :=
  page ← get "_page";
  invoke page "hover" [selector];;
  ret undefined.

(** [async waitForSelector(selector, doThrow = false)]. *)
Definition waitForSelector (selector doThrow : Value) : Prog :=
  let doThrow := dflt doThrow vfalse in
  page ← get "_page";
  Functions "waitForSelector" [page; selector; doThrow];;
  ret undefined.

(** [async select(selector, value)]. *)
Definition select (selector value : Value) : Prog :=
  page ← get "_page";
  invoke page "select" [selector; value];;
  ret undefined.

(** [async selectFrame(selector, value)]. *)
Definition selectFrame (selector value : Value) : Prog :=
  frame ← get "_frame";
  invoke frame "select" [selector; value];;
  ret undefined.

(** [async goto(url, options = {})]. *)
Definition goto (url options : Value) : Prog :=
  let options := dflt options (VObj []) in
  page ← get "_page";
  invoke page "goto" [url; options];;
  ret undefined.

(** [async randomWait(time = 2000, random = 1000)]. *)
Definition randomWait (time random : Value) : Prog :=
  let time := dflt time (vnum 2000) in
  let random := dflt random (vnum 1000) in
  page ← get "_page";
  invoke page "waitForTimeout" [time];;
  ret undefined.

(** [async logScreenshot(text = "", fullPage = false)]. *)
Definition logScreenshot (text fullPage : Value) : Prog :=
  let text := dflt text (VStr "") in
  let fullPage := dflt fullPage vfalse in
  page ← get "_page";
  Functions "logScreenshot" [page; text; fullPage];;
  ret undefined.

(** [async isSelectorVisible(selector)]. *)
Definition isSelectorVisible (selector : Value) : Prog :=
  page ← get "_page";
  Functions "isSelectorVisible" [page; selector].

(** [async scrollToSelector(stopSelector, wait = true)]. *)
Definition scrollToSelector (stopSelector wait : Value) : Prog :=
  let wait := dflt wait vtrue in
  page ← get "_page";
  Functions "scrollToSelector" [page; stopSelector; wait];;
  ret undefined.

(** [async scrollToBottom()]. *)
Definition scrollToBottom : Prog :=
  page ← get "_page";
  bottomSelector ← Functions "getBottomSelector" [page];
  page ← get "_page";
  Functions "scrollDown" [page; bottomSelector];;
  ret undefined.

(** [async scrollUp(stopSelector, wait = true, press = false,
    minScrolls = 11, maxScrolls = 15)]. *)
Definition scrollUp (stopSelector wait press minScrolls maxScrolls : Value) : Prog :=
  let wait := dflt wait vtrue in
  let press := dflt press vfalse in
  let minScrolls := dflt minScrolls (vnum 11) in
  let maxScrolls := dflt maxScrolls (vnum 15) in
  page ← get "_page";
  Functions "scrollUp" [page; stopSelector; wait; press; minScrolls; maxScrolls];;
  ret undefined.

(** [async scrollDown(stopSelector, wait = true, press = false,
    minScrolls = 11, maxScrolls = 15, minIterations = 0)]. *)
Definition scrollDown
    (stopSelector wait press minScrolls maxScrolls minIterations : Value) : Prog :=
  let wait := dflt wait vtrue in
  let press := dflt press vfalse in
  let minScrolls := dflt minScrolls (vnum 11) in
  let maxScrolls := dflt maxScrolls (vnum 15) in
  let minIterations := dflt minIterations (vnum 0) in
  page ← get "_page";
  Functions "scrollDown" [page; wait; press; minScrolls; maxScrolls; minIterations];;
  ret undefined.

(** [async setValue(selector, text)]. *)
Definition setValue (selector text : Value) : Prog :=
  page ← get "_page";
  Functions "setValue" [page; selector; text];;
  ret undefined.

(** [async deactivateLink(page, selector)]; the first parameter is not
    used. *)
Definition deactivateLink (page selector : Value) : Prog :=
  page ← get "_page";
  Functions "deactivateLink" [page; selector];;
  ret undefined.

(** [async getHref(selector)]. *)
Definition getHref (selector : Value) : Prog :=
  page ← get "_page";
  Functions "getHref" [page; selector].

(** [getRandomTime(time, random)]: a plain call, whose result is returned
    as it is. *)
Definition getRandomTime (time random : Value) : Prog :=
  Functions "getRandomTime" [time; random].

(** [getRandomNumber(to, from = 0)]. *)
Definition getRandomNumber (to from : Value) : Prog :=
  let from := dflt from (vnum 0) in
  Functions "getRandomNumber" [to; from].

(** [getRandomBoolean(truePercent = 0.5)]. *)
Definition getRandomBoolean (truePercent : Value) : Prog :=
  let truePercent := dflt truePercent (VNum (1 # 2)) in
  Functions "getRandomBoolean" [truePercent].

(** [async goBack()]. *)
Definition goBack : Prog :=
  page ← get "_page";
  invoke page "goBack" [];;
  ret undefined.

(** [getPage()]. *)
Definition getPage : Prog := get "_page".

(** [getFrame()]. *)
Definition getFrame : Prog := get "_frame".

(** [getIdentity()]. *)
Definition getIdentity : Prog := get "_identity".

(** [async solveCaptcha(selector)]. *)
Definition solveCaptcha (selector : Value) : Prog :=
  page ← get "_page";
  Functions "solveCaptcha" [page; selector].

(** [async solveRecaptcha(selector)]. *)
Definition solveRecaptcha (selector : Value) : Prog :=
  iframe ← get "_iframe";
  Functions "solveRecaptcha" [iframe; selector].

End SimpleController.

(** ** Loading the module *)

(** The top level of the file: two [require]s bound to constants, the class
    declaration, and the assignment to [module.exports].  An identifier is
    looked up among the bindings of the module and then among the globals;
    one that is bound nowhere throws a ReferenceError. *)
Definition lookup_ident (scope globals : gmap string Value) (x : string) : Res Value :=
  match scope !! x with
  | Some v => Ok v
  | None =>
      match globals !! x with
      | Some v => Ok v
      | None => Throw ReferenceError
      end
  end.

Definition res_bind {A B} (r : Res A) (k : A -> Res B) : Res B :=
  match r with
  | Ok a => k a
  | Throw e => Throw e
  end.

(** The value of [module.exports] once the file has run. *)
Definition load_module (require : string -> Res Value) (globals : gmap string Value)
  : Res Value :=
  let scope : gmap string Value := ∅ in
  res_bind (require "../include/functions") (fun functions =>
  let scope := <["Functions" := functions]> scope in
  res_bind (require "puppeteer") (fun puppeteer =>
  let scope := <["Puppeteer" := puppeteer]> scope in
  let scope := <["SimpleController" := VClass "SimpleController"]> scope in
  res_bind (lookup_ident scope globals "Controller") (fun exports =>
  Ok exports))).

(** ** The helpers of include/functions that the properties depend on *)

Definition ElementNotFoundError : Error := Err "ElementNotFoundError".
Definition FrameNotResolvedError : Error := Err "FrameNotResolvedError".

(** A frame of a page, with its URL. *)
Record Frame : Type := mkFrame {
  frame_id : nat;
  frame_url : string
}.

(** Modelled from the spec: [Functions.getFrame] (include/functions is not
    among the sources) scans the frames of the page for a frame whose URL
    starts with the given prefix and gives the frame, or [null] when there is
    none. *)
Definition Functions_getFrame (frames : list Frame) (urlPrefix : string) : Value :=
  match List.find (fun f => String.prefix urlPrefix (frame_url f)) frames with
  | Some f => VHost (frame_id f)
  | None => null
  end.

(** Modelled from the spec: [Functions.waitForSelector] (include/functions is
    not among the sources) polls for the element up to a bounded timeout;
    [polls] tells, for each poll made before the timeout, whether the element
    was there.  When it never was, the helper throws ElementNotFoundError if
    [doThrow] is true and returns [false] otherwise. *)
Definition Functions_waitForSelector (polls : list bool) (doThrow : Value) : Res Value :=
  if existsb id polls then Ok vtrue
  else if truthy doThrow then Throw ElementNotFoundError
  else Ok vfalse.

(** ** Sequences of operations *)

(** A call of a public method of the controller. *)
Inductive Op : Type :=
| Init (executablePath : Value)
| FocusFrame (url : Value)
| FocusFrameSelector (selector : Value)
| Type_ (selector text : Value)
| TypeFrame (selector text : Value)
| TypeEnter
| TypeTab (page : Value)
| TypeEsc (page : Value)
| Click (selector delay tap topRight doTrigger : Value)
| ClickAndWait (selector delay tap topRight doTrigger : Value)
| ClickFrame (selector : Value)
| ClickFrameAndWait (selector : Value)
| Hover (selector : Value)
| WaitForSelector (selector doThrow : Value)
| Select (selector value : Value)
| SelectFrame (selector value : Value)
| Goto (url options : Value)
| RandomWait (time random : Value)
| WaitForNavigation
| LogScreenshot (text fullPage : Value)
| IsSelectorVisible (selector : Value)
| ScrollToSelector (stopSelector wait : Value)
| ScrollToBottom
| ScrollUp (stopSelector wait press minScrolls maxScrolls : Value)
| ScrollDown (stopSelector wait press minScrolls maxScrolls minIterations : Value)
| SetValue (selector text : Value)
| DeactivateLink (page selector : Value)
| GetHref (selector : Value)
| GetRandomTime (time random : Value)
| GetRandomNumber (to from : Value)
| GetRandomBoolean (truePercent : Value)
| GoBack
| GetPage
| GetFrame
| GetIdentity
| SolveCaptcha (selector : Value)
| SolveRecaptcha (selector : Value).

Import SimpleController.

(** The body that a call runs, on a stack with room for [depth] calls. *)
Definition body (depth : nat) (op : Op) : Prog :=
  match op with
  | Init executablePath => init executablePath
  | FocusFrame url => focusFrame url
  | FocusFrameSelector selector => focusFrameSelector selector
  | Type_ selector text => type depth selector text
  | TypeFrame selector text => typeFrame selector text
  | TypeEnter => typeEnter
  | TypeTab page => typeTab page
  | TypeEsc page => typeEsc page
  | Click selector delay tap topRight doTrigger =>
      click selector delay tap topRight doTrigger
  | ClickAndWait selector delay tap topRight doTrigger =>
      clickAndWait selector delay tap topRight doTrigger
  | ClickFrame selector => clickFrame selector
  | ClickFrameAndWait selector => clickFrameAndWait selector
  | Hover selector => hover selector
  | WaitForSelector selector doThrow => waitForSelector selector doThrow
  | Select selector value => select selector value
  | SelectFrame selector value => selectFrame selector value
  | Goto url options => goto url options
  | RandomWait time random => randomWait time random
  | WaitForNavigation => waitForNavigation
  | LogScreenshot text fullPage => logScreenshot text fullPage
  | IsSelectorVisible selector => isSelectorVisible selector
  | ScrollToSelector stopSelector wait => scrollToSelector stopSelector wait
  | ScrollToBottom => scrollToBottom
  | ScrollUp stopSelector wait press minScrolls maxScrolls =>
      scrollUp stopSelector wait press minScrolls maxScrolls
  | ScrollDown stopSelector wait press minScrolls maxScrolls minIterations =>
      scrollDown stopSelector wait press minScrolls maxScrolls minIterations
  | SetValue selector text => setValue selector text
  | DeactivateLink page selector => deactivateLink page selector
  | GetHref selector => getHref selector
  | GetRandomTime time random => getRandomTime time random
  | GetRandomNumber to from => getRandomNumber to from
  | GetRandomBoolean truePercent => getRandomBoolean truePercent
  | GoBack => goBack
  | GetPage => getPage
  | GetFrame => getFrame
  | GetIdentity => getIdentity
  | SolveCaptcha selector => solveCaptcha selector
  | SolveRecaptcha selector => solveRecaptcha selector
  end.

(** One call: its outcome and the state it leaves. *)
Definition call (op : Op) : M :=
  fun env s => exec (body (stack env) op) env s.

(** The calls of a sequence, one after the other; the outcome of a call,
    value or error, goes to the caller and the next call finds the object as
    the one before left it. *)
Fixpoint calls (ops : list Op) (env : Env) (s : St) : St :=
  match ops with
  | [] => s
  | op :: ops' => calls ops' env (snd (call op env s))
  end.

(** [new SimpleController(identity, endpoint)], no driver call made yet. *)
Definition new (identity endpoint : Value) (env : Env) : St :=
  snd (exec (constructor identity endpoint) env (mkSt ∅ [])).

(** ** Promises that settle in any order *)

(** [exec] lets the promises of a [Promise.all] settle in the order of the
    array.  The driver may settle them in any order; the machine below keeps
    every started body with the promise it waits for and takes the
    settlements from a schedule. *)

(** A started body: finished, waiting for the promise of the driver call
    logged at position [id], or waiting for a [Promise.all] of started
    bodies. *)
Inductive Task : Type :=
| TDone (r : Res Value)
| TWait (id : nat) (k : Res Value -> Prog)
| TAll (ts : list Task) (k : Res Value -> Prog).

(** The state of a [Promise.all]: rejected as soon as one promise is
    (the first of the array, when several already are), fulfilled with the
    array of the values once all are fulfilled, pending otherwise. *)
Fixpoint join_values (ts : list Task) : option (Res (list Value)) :=
  match ts with
  | [] => Some (Ok [])
  | t :: ts' =>
      match t, join_values ts' with
      | TDone (Throw e), _ => Some (Throw e)
      | TDone (Ok v), Some (Ok vs) => Some (Ok (v :: vs))
      | _, Some (Throw e) => Some (Throw e)
      | _, _ => None
      end
  end.

Definition join (ts : list Task) : option (Res Value) :=
  match join_values ts with
  | Some (Ok vs) => Some (Ok (VArr vs))
  | Some (Throw e) => Some (Throw e)
  | None => None
  end.

Definition is_done (t : Task) : bool :=
  match t with
  | TDone _ => true
  | _ => false
  end.

(** The bodies still running when their [Promise.all] is rejected; they go
    on, with nobody waiting for them. *)
Definition unfinished (ts : list Task) : list Task :=
  List.filter (fun t => negb (is_done t)) ts.

(** Running a body up to the promise it has to wait for.  The result is the
    started body, the state, and the bodies left running on their own. *)
Fixpoint launch (p : Prog) (s : St) : Task * St * list Task :=
  match p with
  | Ret r => (TDone r, s, [])
  | Get f k => launch (k (field s f)) s
  | Put f v k => launch k (assign f v s)
  | Await c k => (TWait (length (trace s)) k, log c s, [])
  | Fire c k => launch k (log c s)
  | All ps k =>
      let '(ts, s1, os1) :=
        (fix launches (ps : list Prog) (s : St) : list Task * St * list Task :=
           match ps with
           | [] => ([], s, [])
           | p :: ps' =>
               let '(t, s', os) := launch p s in
               let '(ts, s'', os') := launches ps' s' in
               (t :: ts, s'', os ++ os')
           end) ps s in
      match join ts with
      | Some r =>
          let '(t, s2, os2) := launch (k r) s1 in
          (t, s2, os1 ++ unfinished ts ++ os2)
      | None => (TAll ts k, s1, os1)
      end
  end.

(** The promise of call [id] settles with [r]: the body that waits for it
    goes on to its next promise, and a [Promise.all] above it is looked at
    again. *)
Fixpoint deliver (id : nat) (r : Res Value) (t : Task) (s : St) : Task * St * list Task :=
  match t with
  | TDone _ => (t, s, [])
  | TWait id' k => if Nat.eqb id id' then launch (k r) s else (t, s, [])
  | TAll ts k =>
      let '(ts', s1, os1) :=
        (fix delivers (ts : list Task) (s : St) : list Task * St * list Task :=
           match ts with
           | [] => ([], s, [])
           | t :: ts' =>
               let '(t', s', os) := deliver id r t s in
               let '(ts'', s'', os') := delivers ts' s' in
               (t' :: ts'', s'', os ++ os')
           end) ts s in
      match join ts' with
      | Some r' =>
          let '(t', s2, os2) := launch (k r') s1 in
          (t', s2, os1 ++ unfinished ts' ++ os2)
      | None => (TAll ts' k, s1, os1)
      end
  end.

Fixpoint delivers (id : nat) (r : Res Value) (ts : list Task) (s : St)
  : list Task * St * list Task :=
  match ts with
  | [] => ([], s, [])
  | t :: ts' =>
      let '(t', s', os) := deliver id r t s in
      let '(ts'', s'', os') := delivers id r ts' s' in
      (t' :: ts'', s'', os ++ os')
  end.

(** Whether a started body has a part that waits for the promise [id]. *)
Fixpoint awaits (id : nat) (t : Task) : bool :=
  match t with
  | TDone _ => false
  | TWait id' _ => Nat.eqb id id'
  | TAll ts _ => existsb (awaits id) ts
  end.

(** A call in progress: the body called, the bodies left running on their
    own, the state, and the promises settled so far, oldest first. *)
Record Sys : Type := mkSys {
  root : Task;
  detached : list Task;
  st : St;
  settled : list (nat * Res Value)
}.

(** Calling a method: its body runs up to the first promise it waits for. *)
Definition begin (p : Prog) (s : St) : Sys :=
  let '(t, s', os) := launch p s in mkSys t os s' [].

(** One settlement.  A promise settles once, and only if some body still
    waits for it. *)
Definition settle (ev : nat * Res Value) (y : Sys) : Sys :=
  let '(id, r) := ev in
  if awaits id (root y) || existsb (awaits id) (detached y) then
    let '(t, s1, os1) := deliver id r (root y) (st y) in
    let '(ds, s2, os2) := delivers id r (detached y) s1 in
    mkSys t (ds ++ os1 ++ os2) s2 (settled y ++ [(id, r)])
  else y.

(** The settlements of a schedule, in order. *)
Fixpoint run (sched : list (nat * Res Value)) (y : Sys) : Sys :=
  match sched with
  | [] => y
  | ev :: sched' => run sched' (settle ev y)
  end.

(** The driver call whose promise settled. *)
Definition settled_call (y : Sys) (c : Call) (r : Res Value) : Prop :=
  ∃ id, trace (st y) !! id = Some c ∧ (id, r) ∈ settled y.

(** ** Sample environments *)

Definition sample_frames : list Frame :=
  [mkFrame 3 "https://example.org/ad"; mkFrame 4 "https://captcha.example/challenge"].

(** A driver with a browser to attach to: its page is host object 1 and has
    the frames of [sample_frames]; an element looked up in a frame is host
    object 9; the page's own [click] finds its node detached; the selector
    waited for never shows up. *)
Definition sample_driver (_ : list Call) (c : Call) : Res Value :=
  match c with
  | Func name args =>
      if String.eqb name "init" then
        Ok (VObj [("page", VHost 1); ("browser", VHost 2)])
      else if String.eqb name "getFrame" then
        match args with
        | [_; VStr urlPrefix] => Ok (Functions_getFrame sample_frames urlPrefix)
        | _ => Ok null
        end
      else if String.eqb name "waitForSelector" then
        match args with
        | [_; _; doThrow] => Functions_waitForSelector [false; false; false] doThrow
        | _ => Ok undefined
        end
      else Ok undefined
  | Method (VHost 1) name _ =>
      if String.eqb name "click" then Throw (Err "Error") else Ok undefined
  | Method _ name _ =>
      if String.eqb name "$" then Ok (VHost 9) else Ok undefined
  end.

Definition sample_env : Env := mkEnv sample_driver 100.

(** A controller on which [init] has run. *)
Definition ready : St :=
  calls [Init undefined] sample_env (new (VObj []) undefined sample_env).

(** ** Fields that a body leaves alone *)

(** Induction on bodies, with the bodies of a [Promise.all] covered. *)
Section ProgInduction.
Variable P : Prog → Prop.
Hypothesis HRet : ∀ r, P (Ret r).
Hypothesis HGet : ∀ f k, (∀ v, P (k v)) → P (Get f k).
Hypothesis HPut : ∀ f v k, P k → P (Put f v k).
Hypothesis HAwait : ∀ c k, (∀ r, P (k r)) → P (Await c k).
Hypothesis HFire : ∀ c k, P k → P (Fire c k).
Hypothesis HAll : ∀ ps k, Forall P ps → (∀ r, P (k r)) → P (All ps k).

Fixpoint Prog_induction (p : Prog) : P p :=
  match p with
  | Ret r => HRet r
  | Get f k => HGet f k (fun v => Prog_induction (k v))
  | Put f v k => HPut f v k (Prog_induction k)
  | Await c k => HAwait c k (fun r => Prog_induction (k r))
  | Fire c k => HFire c k (Prog_induction k)
  | All ps k =>
      HAll ps k
        ((fix go (ps : list Prog) : Forall P ps :=
            match ps with
            | [] => @List.Forall_nil _ P
            | p :: ps' => @List.Forall_cons _ P p ps' (Prog_induction p) (go ps')
            end) ps)
        (fun r => Prog_induction (k r))
  end.
End ProgInduction.

(** [no_put f p]: no run of the body [p] assigns the field [f]. *)
Fixpoint no_put (f : string) (p : Prog) : Prop :=
  match p with
  | Ret _ => True
  | Get _ k => ∀ v, no_put f (k v)
  | Put g _ k => g ≠ f ∧ no_put f k
  | Await _ k => ∀ r, no_put f (k r)
  | Fire _ k => no_put f k
  | All ps k =>
      (fix each (ps : list Prog) : Prop :=
         match ps with
         | [] => True
         | p :: ps' => no_put f p ∧ each ps'
         end) ps
      ∧ ∀ r, no_put f (k r)
  end.

(** A rest of a body, as [start] hands it out, that leaves the field
    alone. *)
Definition keeps (f : string) (m : M) : Prop :=
  ∀ env s, this (snd (m env s)) !! f = this s !! f.

(** ** Operations and the focused frame *)

(** The operations that assign [_frame]. *)
Definition assigns_frame (op : Op) : bool :=
  match op with
  | Init _ | FocusFrame _ | FocusFrameSelector _ => true
  | _ => false
  end.

(** The frame-scoped operations: [typeFrame], [clickFrame], [selectFrame]. *)
Definition frame_scoped (op : Op) : bool :=
  match op with
  | TypeFrame _ _ | ClickFrame _ | SelectFrame _ _ => true
  | _ => false
  end.

(** ** The phases of clickAndWait *)

(** What is left of [click], of [waitForNavigation] and of [clickAndWait]
    itself once the promise awaited has settled: an error is thrown on, a
    value is dropped and [undefined] returned. *)
Definition settle_then_return : Res Value → Prog :=
  fun r => bind (Ret r) (fun _ => ret undefined).

(** The state once [clickAndWait] has made its two calls. *)
Definition both_called (s : St) (selector : Value) : St :=
  log (Method (field s "_page") "waitForNavigation" [])
    (log (Method (field s "_page") "click" [selector]) s).

(** The states that a call of [clickAndWait] made in state [s] goes through
    while no promise is rejected: both promises pending, one of them
    fulfilled, both fulfilled and the call returned; or else the call has
    thrown.  The click is call number [length (trace s)] of the log, the
    navigation-wait the next. *)
Inductive phase (s : St) (selector : Value) (y : Sys) : Prop :=
| both_pending :
    root y = TAll [TWait (length (trace s)) settle_then_return;
                   TWait (S (length (trace s))) settle_then_return]
               settle_then_return →
    detached y = [] → st y = both_called s selector →
    phase s selector y
| click_done v1 :
    root y = TAll [TDone (Ok undefined);
                   TWait (S (length (trace s))) settle_then_return]
               settle_then_return →
    detached y = [] → st y = both_called s selector →
    (length (trace s), Ok v1) ∈ settled y →
    phase s selector y
| nav_done v2 :
    root y = TAll [TWait (length (trace s)) settle_then_return;
                   TDone (Ok undefined)]
               settle_then_return →
    detached y = [] → st y = both_called s selector →
    (S (length (trace s)), Ok v2) ∈ settled y →
    phase s selector y
| returned v1 v2 :
    root y = TDone (Ok undefined) →
    detached y = [] → st y = both_called s selector →
    (length (trace s), Ok v1) ∈ settled y →
    (S (length (trace s)), Ok v2) ∈ settled y →
    phase s selector y
| thrown e :
    root y = TDone (Throw e) →
    phase s selector y.

(** ** Classes of operations *)

(** The fields of [this] that an operation may assign. *)
Definition assigned (op : Op) : list string :=
  match op with
  | Init _ => ["_page"; "_frame"; "_pages"; "_browser"]
  | FocusFrame _ | FocusFrameSelector _ => ["_frame"]
  | _ => []
  end.

(** The operations whose first step is a method call on [this._page]. *)
Definition on_page (op : Op) : bool :=
  match op with
  | FocusFrameSelector _ | Click _ _ _ _ _ | ClickAndWait _ _ _ _ _ | Hover _
  | Select _ _ | Goto _ _ | RandomWait _ _ | WaitForNavigation | GoBack => true
  | _ => false
  end.

(** The operations that hand [this._page] to a helper of [Functions]. *)
Definition via_helper (op : Op) : bool :=
  match op with
  | FocusFrame _ | TypeEnter | TypeTab _ | TypeEsc _ | WaitForSelector _ _
  | LogScreenshot _ _ | IsSelectorVisible _ | ScrollToSelector _ _
  | ScrollToBottom | ScrollUp _ _ _ _ _ | ScrollDown _ _ _ _ _ _
  | SetValue _ _ | DeactivateLink _ _ | GetHref _ | SolveCaptcha _ => true
  | _ => false
  end.

(** The operations that end in [return await Functions....] or
    [return Functions....]: what the helper gives is what they give. *)
Definition returns_helper_value (op : Op) : bool :=
  match op with
  | IsSelectorVisible _ | GetHref _ | GetRandomTime _ _ | GetRandomNumber _ _
  | GetRandomBoolean _ | SolveCaptcha _ | SolveRecaptcha _ => true
  | _ => false
  end.

(** The operations with a [return] of a value of their own: the two that
    focus a frame, and the accessors. *)
Definition returns_own_value (op : Op) : bool :=
  match op with
  | FocusFrame _ | FocusFrameSelector _ | GetPage | GetFrame | GetIdentity => true
  | _ => false
  end.

Definition is_init (op : Op) : bool :=
  match op with
  | Init _ => true
  | _ => false
  end.

(** ** Where errors come from *)

(** [relays E p]: every error that a run of [p] throws is in [E], provided
    every rejection that the run is handed is. *)
Fixpoint relays (E : Error → Prop) (p : Prog) : Prop :=
  match p with
  | Ret (Ok _) => True
  | Ret (Throw e) => E e
  | Get _ k => ∀ v, relays E (k v)
  | Put _ _ k => relays E k
  | Await _ k => ∀ r, (∀ e, r = Throw e → E e) → relays E (k r)
  | Fire _ k => relays E k
  | All ps k =>
      (fix each (ps : list Prog) : Prop :=
         match ps with
         | [] => True
         | p :: ps' => relays E p ∧ each ps'
         end) ps
      ∧ ∀ r, (∀ e, r = Throw e → E e) → relays E (k r)
  end.

(** A rest of a body that, in the environment [env], throws errors of [E]
    only. *)
Definition throws_in (E : Error → Prop) (env : Env) (m : M) : Prop :=
  ∀ s e, fst (m env s) = Throw e → E e.

(** The errors that a call can end in: the controller's own TypeError and
    RangeError, and whatever the driver rejects a call with. *)
Definition relayed (env : Env) (e : Error) : Prop :=
  e = TypeError ∨ e = RangeError ∨ ∃ tr c, driver env tr c = Throw e.


(** A second driver: on the page (host object 1) the selector [iframe] finds
    element 5, whose content frame is frame 4, the selector [div] finds
    element 6, which has no content frame, and no other selector finds
    anything; in a frame every selector but [#missing] finds element 9; the
    last element of the page is [div:last-child]; typing into an element
    fails; everything else is as with [sample_driver]. *)
Definition page_driver (tr : list Call) (c : Call) : Res Value :=
  match c with
  | Method (VHost 1) name [VStr selector] =>
      if String.eqb name "$" then
        if String.eqb selector "iframe" then Ok (VHost 5)
        else if String.eqb selector "div" then Ok (VHost 6)
        else Ok null
      else sample_driver tr c
  | Method (VHost 5) name [] =>
      if String.eqb name "contentFrame" then Ok (VHost 4) else Ok undefined
  | Method (VHost 6) name [] =>
      if String.eqb name "contentFrame" then Ok null else Ok undefined
  | Method (VHost 4) name [VStr selector] =>
      if String.eqb name "$" then
        if String.eqb selector "#missing" then Ok null else Ok (VHost 9)
      else Ok undefined
  | Method (VHost 9) name _ =>
      if String.eqb name "type" then Throw (Err "Error") else Ok undefined
  | Func name _ =>
      if String.eqb name "getBottomSelector" then Ok (VStr "div:last-child")
      else sample_driver tr c
  | _ => sample_driver tr c
  end.

Definition page_env : Env := mkEnv page_driver 100.

(** A controller on which [init] has run and frame 4 is focused. *)
Definition focused : St :=
  calls [Init undefined; FocusFrameSelector (VStr "iframe")] page_env
    (new (VObj []) undefined page_env).

(* ================================================================== *)
(** * Properties *)

(** ** Fields that a body leaves alone *)

Lemma no_put_bind f p k :
  no_put f p → (∀ v, no_put f (k v)) → no_put f (bind p k).
Proof.
  intros Hp Hk. induction p as [r|g k' IH|g v k' IH|c k' IH|c k' IH|ps k' _ IH]
    using Prog_induction; simpl in *.
  - destruct r; simpl; auto.
  - intros v. apply IH, Hp.
  - destruct Hp as [Hg Hp]. split; auto.
  - intros r. apply IH, Hp.
  - auto.
  - destruct Hp as [Hps Hp]. split; [exact Hps|]. intros r. apply IH, Hp.
Qed.

Lemma finish_keeps f env rests s :
  Forall (keeps f) rests → this (snd (finish env rests s)) !! f = this s !! f.
Proof.
  intros H. revert s. induction H as [|rest rests Hrest _ IH]; intros s; simpl.
  - reflexivity.
  - specialize (Hrest env s). destruct (rest env s) as [r s'].
    specialize (IH s'). destruct (finish env rests s') as [rs s''].
    simpl in *. congruence.
Qed.

Lemma starts_unfold env ps s :
  (fix starts (ps : list Prog) (s : St) : list M * St :=
     match ps with
     | [] => ([], s)
     | p :: ps' =>
         let '(rest, s') := start p env s in
         let '(rests, s'') := starts ps' s' in
         (rest :: rests, s'')
     end) ps s = starts env ps s.
Proof.
  revert s. induction ps as [|p ps IH]; intros s; simpl; [reflexivity|].
  destruct (start p env s) as [rest s']. rewrite IH. reflexivity.
Qed.

(** [Promise.all] in [exec]: start the bodies, let them finish, go on with
    the outcome. *)
Lemma exec_All ps k env s :
  exec (All ps k) env s =
  let '(rests, s1) := starts env ps s in
  let '(rs, s2) := finish env rests s1 in
  exec (k (all_result rs)) env s2.
Proof.
  simpl. rewrite starts_unfold. reflexivity.
Qed.

Lemma exec_start_no_put f p :
  no_put f p →
  (∀ env s, this (snd (exec p env s)) !! f = this s !! f) ∧
  (∀ env s, this (snd (start p env s)) !! f = this s !! f
            ∧ keeps f (fst (start p env s))).
Proof.
  induction p as [r|g k IH|g v k IH|c k IH|c k IH|ps k IHps IHk]
    using Prog_induction; simpl; intros Hp.
  - split; [reflexivity|]. intros env s. split; [reflexivity|].
    intros env' s'. reflexivity.
  - split; intros env s; apply (IH _ (Hp _)).
  - destruct Hp as [Hg Hp]. specialize (IH Hp) as [IHe IHs].
    assert (Hput : ∀ s, this (assign g v s) !! f = this s !! f).
    { intros s. unfold assign. simpl. by rewrite lookup_insert_ne. }
    split; intros env s.
    + rewrite IHe. apply Hput.
    + destruct (IHs env (assign g v s)) as [H1 H2]. split; [|exact H2].
      rewrite H1. apply Hput.
  - split; intros env s.
    + destruct (IH (driver env (trace (log c s)) c) (Hp _)) as [IHe _].
      rewrite IHe. reflexivity.
    + split; [reflexivity|]. intros env' s'.
      destruct (IH (driver env' (trace s') c) (Hp _)) as [IHe _]. apply IHe.
  - specialize (IH Hp) as [IHe IHs]. split; intros env s.
    + rewrite IHe. reflexivity.
    + destruct (IHs env (log c s)) as [H1 H2]. split; [|exact H2].
      rewrite H1. reflexivity.
  - destruct Hp as [Hps Hk].
    assert (Hstarts : ∀ env s,
      this (snd (starts env ps s)) !! f = this s !! f
      ∧ Forall (keeps f) (fst (starts env ps s))).
    { intros env. clear IHk Hk k.
      induction IHps as [|p ps Hhd _ IHtl]; intros s; simpl.
      - split; [reflexivity|constructor].
      - destruct Hps as [Hp Hps]. destruct (Hhd Hp) as [_ Hs].
        destruct (Hs env s) as [H1 H2]. destruct (start p env s) as [rest s'].
        destruct (IHtl Hps s') as [H3 H4].
        destruct (starts env ps s') as [rests s'']. simpl in *.
        split; [congruence|]. constructor; assumption. }
    split; intros env s; rewrite starts_unfold; destruct (Hstarts env s) as [H1 H2];
      destruct (starts env ps s) as [rests s1]; simpl in *.
    + pose proof (finish_keeps f env rests s1 H2) as H3.
      destruct (finish env rests s1) as [rs s2]. simpl in *.
      destruct (IHk (all_result rs) (Hk _)) as [IHe _]. rewrite IHe. congruence.
    + split; [exact H1|]. intros env' s'.
      pose proof (finish_keeps f env' rests s' H2) as H3.
      destruct (finish env' rests s') as [rs s2]. simpl in *.
      destruct (IHk (all_result rs) (Hk _)) as [IHe _]. rewrite IHe. congruence.
Qed.

Lemma exec_no_put f p env s :
  no_put f p → field (snd (exec p env s)) f = field s f.
Proof.
  intros Hp. unfold field. by rewrite (proj1 (exec_start_no_put f p Hp)).
Qed.

(** ** The export of the module *)

Lemma load_module_unbound require globals :
  globals !! "Controller" = None →
  (∃ e, require "../include/functions" = Throw e
        ∧ load_module require globals = Throw e)
  ∨ (∃ e, require "puppeteer" = Throw e ∧ load_module require globals = Throw e)
  ∨ load_module require globals = Throw ReferenceError.
Proof.
  intros Hg. unfold load_module.
  destruct (require "../include/functions") as [fs|e]; simpl; [|eauto].
  destruct (require "puppeteer") as [pp|e]; simpl; [|eauto].
  right; right. unfold lookup_ident.
  rewrite !lookup_insert_ne by done. rewrite lookup_empty, Hg. reflexivity.
Qed.

(** C2.  Loading the module does not succeed: with both [require]s answered
    and no global named [Controller], the last statement looks up the
    identifier [Controller], which is bound nowhere (the class is named
    [SimpleController]), and throws a ReferenceError; nothing is exported. *)
Theorem load_module_throws :
  load_module (fun path => Ok (VModule path)) ∅ = Throw ReferenceError
  ∧ load_module (fun path => Ok (VModule path)) ∅ ≠ Ok (VClass "SimpleController").
Proof.
  split; [reflexivity|]. intros H. discriminate H.
Qed.

(** ** Scrolling *)

Ltac run_await :=
  simpl;
  match goal with
  | |- context [driver ?env ?tr ?c] => destruct (driver env tr c); simpl
  end.

(** C3.  [scrollDown] does not forward its stop selector: the call that
    reaches [Functions.scrollDown] carries the page, then [wait], [press],
    [minScrolls], [maxScrolls] and [minIterations], whatever the stop
    selector is; [scrollUp] does forward it, after the page. *)
Theorem scrollDown_drops_stopSelector
    env s stopSelector wait press minScrolls maxScrolls minIterations :
  trace (snd (exec (scrollDown stopSelector wait press minScrolls maxScrolls
                      minIterations) env s))
  = trace s ++ [Func "scrollDown"
                  [field s "_page"; dflt wait vtrue; dflt press vfalse;
                   dflt minScrolls (vnum 11); dflt maxScrolls (vnum 15);
                   dflt minIterations (vnum 0)]]
  ∧ trace (snd (exec (scrollUp stopSelector wait press minScrolls maxScrolls) env s))
  = trace s ++ [Func "scrollUp"
                  [field s "_page"; stopSelector; dflt wait vtrue;
                   dflt press vfalse; dflt minScrolls (vnum 11);
                   dflt maxScrolls (vnum 15)]].
Proof.
  split; unfold scrollDown, scrollUp; run_await; reflexivity.
Qed.

Example scrollDown_footer :
  trace (snd (exec (scrollDown (VStr "#footer") undefined undefined undefined
                      undefined undefined) sample_env ready))
  = trace ready ++ [Func "scrollDown"
                      [VHost 1; vtrue; vfalse; vnum 11; vnum 15; vnum 0]].
Proof. reflexivity. Qed.

(** ** Typing *)

Lemma type_body stack selector text :
  type stack selector text = throw RangeError.
Proof.
  revert selector. induction stack as [|n IH]; intros selector; simpl.
  - reflexivity.
  - rewrite IH. reflexivity.
Qed.

(** C4.  [type] does not focus or type anything: its body calls [type]
    again, so on a stack of any depth the call ends in a RangeError with no
    driver call made and the object as it was. *)
Theorem type_never_types stack selector text env s :
  exec (type stack selector text) env s = (Throw RangeError, s).
Proof.
  rewrite type_body. reflexivity.
Qed.

(** ** Clicking *)

(** C5.  [click] with [doTrigger] set surfaces the error of the page's
    click: the outcome is that error, and the click is the only driver call
    made, no script being injected in its place. *)
Theorem click_doTrigger_surfaces_error env s selector delay tap topRight e :
  loose_null (field s "_page") = false →
  driver env (trace s ++ [Method (field s "_page") "click" [selector]])
    (Method (field s "_page") "click" [selector]) = Throw e →
  exec (click selector delay tap topRight vtrue) env s
  = (Throw e, log (Method (field s "_page") "click" [selector]) s).
Proof.
  intros Hpage Hclick. unfold click, invoke. simpl. rewrite Hpage. simpl.
  rewrite Hclick. reflexivity.
Qed.

Lemma click_doTrigger_surfaces_error_witness :
  exec (click (VStr "#menu") vtrue vfalse vfalse vtrue) sample_env ready
  = (Throw (Err "Error"), log (Method (VHost 1) "click" [VStr "#menu"]) ready).
Proof.
  apply (click_doTrigger_surfaces_error sample_env ready (VStr "#menu")
           vtrue vfalse vfalse (Err "Error")); reflexivity.
Defined.

(** ** Initialisation *)

Lemma prop_ok_not_null o k v : prop o k = Ok v → ∀ k', ∃ v', prop o k' = Ok v'.
Proof.
  destruct o; simpl; intros H k'; try discriminate; eauto.
Qed.

Lemma field_assign_eq f v s : field (assign f v s) f = v.
Proof. unfold field, assign. simpl. by rewrite lookup_insert_eq. Qed.

Lemma field_assign_ne f g v s : f ≠ g → field (assign f v s) g = field s g.
Proof. intros H. unfold field, assign. simpl. by rewrite lookup_insert_ne. Qed.

(** C9.  After [init] has succeeded with a driver that gave it a page, the
    controller has that page as its page handle, which is not null, no
    focused frame, and exactly one open page, the page itself. *)
Theorem init_session env s executablePath o page :
  driver env
    (trace s ++ [Func "init" [Puppeteer; field s "_endpoint";
                              dflt executablePath (VStr "")]])
    (Func "init" [Puppeteer; field s "_endpoint"; dflt executablePath (VStr "")])
  = Ok o →
  prop o "page" = Ok page →
  loose_null page = false →
  ∃ s', exec (init executablePath) env s = (Ok undefined, s')
        ∧ field s' "_page" = page
        ∧ loose_null (field s' "_page") = false
        ∧ field s' "_frame" = null
        ∧ field s' "_pages" = VArr [page].
Proof.
  intros Hinit Hpage Hnn.
  destruct (prop_ok_not_null o "page" page Hpage "browser") as [browser Hbrowser].
  unfold init. simpl. rewrite Hinit. simpl. rewrite Hpage. simpl.
  rewrite Hbrowser. simpl. eexists. split; [reflexivity|].
  rewrite !field_assign_ne, field_assign_eq by done.
  repeat split; try assumption.
  - rewrite !field_assign_ne, field_assign_eq by done. reflexivity.
  - rewrite field_assign_ne, field_assign_eq by done. reflexivity.
Qed.

Lemma init_session_witness :
  ∃ s', exec (init undefined) sample_env (new (VObj []) undefined sample_env)
        = (Ok undefined, s')
        ∧ field s' "_page" = VHost 1
        ∧ loose_null (field s' "_page") = false
        ∧ field s' "_frame" = null
        ∧ field s' "_pages" = VArr [VHost 1].
Proof.
  apply (init_session sample_env (new (VObj []) undefined sample_env) undefined
           (VObj [("page", VHost 1); ("browser", VHost 2)]) (VHost 1));
    reflexivity.
Defined.

(** ** Waiting for a selector *)

(** The outcome of [waitForSelector] is never a value other than
    [undefined], whatever the helper gives: the wrapper awaits the helper and
    returns nothing. *)
Lemma waitForSelector_returns_nothing env s selector doThrow v :
  fst (exec (waitForSelector selector doThrow) env s) = Ok v → v = undefined.
Proof.
  unfold waitForSelector. run_await; intros H; congruence.
Qed.

(** The claim of C6 for [doThrow = false] fails on the code: with the
    selector absent at every poll the call does not throw, and what it
    returns is [undefined], not [false]. *)
Lemma waitForSelector_not_false :
  fst (exec (waitForSelector (VStr "#footer") vfalse) sample_env ready)
  = Ok undefined
  ∧ fst (exec (waitForSelector (VStr "#footer") vfalse) sample_env ready)
    ≠ Ok vfalse.
Proof.
  split; [reflexivity|]. intros H. discriminate H.
Qed.

(** C6, amended.  For a selector absent at every poll up to the timeout,
    [waitForSelector(selector, false)] does not throw and returns
    [undefined]; [waitForSelector(selector, true)] throws
    ElementNotFoundError. *)
Theorem waitForSelector_absent env s selector polls :
  existsb id polls = false →
  (∀ doThrow,
     driver env
       (trace s ++ [Func "waitForSelector" [field s "_page"; selector; doThrow]])
       (Func "waitForSelector" [field s "_page"; selector; doThrow])
     = Functions_waitForSelector polls doThrow) →
  fst (exec (waitForSelector selector vfalse) env s) = Ok undefined
  ∧ fst (exec (waitForSelector selector vtrue) env s) = Throw ElementNotFoundError.
Proof.
  intros Habsent Hhelper. unfold waitForSelector. simpl.
  rewrite !Hhelper. unfold Functions_waitForSelector. rewrite Habsent. simpl.
  split; reflexivity.
Qed.

Lemma waitForSelector_absent_witness :
  fst (exec (waitForSelector (VStr "#footer") vfalse) sample_env ready)
  = Ok undefined
  ∧ fst (exec (waitForSelector (VStr "#footer") vtrue) sample_env ready)
    = Throw ElementNotFoundError.
Proof.
  apply (waitForSelector_absent sample_env ready (VStr "#footer")
           [false; false; false]).
  - reflexivity.
  - intros doThrow. reflexivity.
Defined.

(** ** Focusing a frame *)

Lemma getFrame_found frames urlPrefix :
  (∃ f, Functions_getFrame frames urlPrefix = VHost (frame_id f)
        ∧ f ∈ frames ∧ String.prefix urlPrefix (frame_url f) = true)
  ∨ (Functions_getFrame frames urlPrefix = null
     ∧ ∀ f, f ∈ frames → String.prefix urlPrefix (frame_url f) = false).
Proof.
  unfold Functions_getFrame.
  destruct (List.find _ frames) as [f|] eqn:Hfind.
  - left. exists f. apply List.find_some in Hfind as [Hin Hp].
    split; [reflexivity|]. split; [|exact Hp]. by apply list_elem_of_In.
  - right. split; [reflexivity|]. intros f Hin.
    apply list_elem_of_In in Hin.
    pose proof (List.find_none _ _ Hfind f Hin) as H. simpl in H.
    destruct (String.prefix urlPrefix (frame_url f)); [discriminate|reflexivity].
Qed.

(** C8.  With the page's frames scanned for the URL prefix, [focusFrame]
    returns true exactly when some frame's URL starts with the prefix; it
    then holds a frame with such a URL as the focused frame; otherwise it
    returns false, throws nothing and leaves the object as it was. *)
Theorem focusFrame_iff env s frames urlPrefix :
  driver env
    (trace s ++ [Func "getFrame" [field s "_page"; VStr urlPrefix]])
    (Func "getFrame" [field s "_page"; VStr urlPrefix])
  = Ok (Functions_getFrame frames urlPrefix) →
  let r := fst (exec (focusFrame (VStr urlPrefix)) env s) in
  let s' := snd (exec (focusFrame (VStr urlPrefix)) env s) in
  (r = Ok vtrue ↔ ∃ f, f ∈ frames ∧ String.prefix urlPrefix (frame_url f) = true)
  ∧ (r = Ok vtrue →
     ∃ f, f ∈ frames ∧ String.prefix urlPrefix (frame_url f) = true
          ∧ field s' "_frame" = VHost (frame_id f))
  ∧ (r ≠ Ok vtrue → r = Ok vfalse ∧ this s' = this s).
Proof.
  intros Hscan. unfold focusFrame. simpl. rewrite Hscan. simpl.
  destruct (getFrame_found frames urlPrefix) as [(f & Hf & Hin & Hp)|[Hnone Hall]].
  - rewrite Hf. simpl. split; [|split].
    + split; [eauto|reflexivity].
    + intros _. exists f. rewrite field_assign_eq. auto.
    + intros H. congruence.
  - rewrite Hnone. simpl. split; [|split].
    + split; [discriminate|]. intros (f & Hin & Hp). rewrite (Hall f Hin) in Hp.
      discriminate.
    + discriminate.
    + intros _. split; reflexivity.
Qed.

Lemma focusFrame_iff_witness :
  let r := fst (exec (focusFrame (VStr "https://captcha.example")) sample_env ready) in
  let s' := snd (exec (focusFrame (VStr "https://captcha.example")) sample_env ready) in
  (r = Ok vtrue ↔
   ∃ f, f ∈ sample_frames
        ∧ String.prefix "https://captcha.example" (frame_url f) = true)
  ∧ (r = Ok vtrue →
     ∃ f, f ∈ sample_frames
          ∧ String.prefix "https://captcha.example" (frame_url f) = true
          ∧ field s' "_frame" = VHost (frame_id f))
  ∧ (r ≠ Ok vtrue → r = Ok vfalse ∧ this s' = this ready).
Proof.
  apply (focusFrame_iff sample_env ready sample_frames "https://captcha.example").
  reflexivity.
Defined.

Example focusFrame_sample :
  fst (exec (focusFrame (VStr "https://captcha.example")) sample_env ready) = Ok vtrue
  ∧ fst (exec (focusFrame (VStr "https://nowhere.example")) sample_env ready) = Ok vfalse.
Proof. split; reflexivity. Qed.

(** ** Which operations assign which field *)

Ltac no_put_step :=
  first
    [ progress simpl
    | progress intros
    | split
    | done
    | match goal with
      | |- no_put _ (match ?r with Ok _ => _ | Throw _ => _ end) => destruct r
      | |- context [if ?b then _ else _] => destruct b
      | |- context [bind (Ret ?r) _] => destruct r
      | |- context [Ret (prop ?o ?k)] => destruct (prop o k)
      end ].

Ltac no_put_tac := repeat no_put_step.

Lemma body_keeps_frame depth op :
  assigns_frame op = false → no_put "_frame" (body depth op).
Proof.
  destruct op; simpl; try discriminate; intros _;
    try (rewrite type_body; exact I);
    unfold typeFrame, typeEnter, typeTab, typeEsc, click, clickAndWait,
      clickFrame, clickFrameAndWait, hover, waitForSelector, select,
      selectFrame, goto, randomWait, waitForNavigation, logScreenshot,
      isSelectorVisible, scrollToSelector, scrollToBottom, scrollUp,
      scrollDown, setValue, deactivateLink, getHref, getRandomTime,
      getRandomNumber, getRandomBoolean, goBack, getPage, getFrame,
      getIdentity, solveCaptcha, solveRecaptcha, click, waitForNavigation,
      clickFrame, Promise_all, Functions, invoke, invoke_detached, await, get,
      set, throw, ret;
    no_put_tac.
Qed.

(** No operation assigns [_iframe]. *)
Lemma body_keeps_iframe depth op : no_put "_iframe" (body depth op).
Proof.
  destruct op; simpl;
    try (rewrite type_body; exact I);
    unfold init, focusFrame, focusFrameSelector,
      typeFrame, typeEnter, typeTab, typeEsc, click, clickAndWait,
      clickFrame, clickFrameAndWait, hover, waitForSelector, select,
      selectFrame, goto, randomWait, waitForNavigation, logScreenshot,
      isSelectorVisible, scrollToSelector, scrollToBottom, scrollUp,
      scrollDown, setValue, deactivateLink, getHref, getRandomTime,
      getRandomNumber, getRandomBoolean, goBack, getPage, getFrame,
      getIdentity, solveCaptcha, solveRecaptcha, click, waitForNavigation,
      clickFrame, Promise_all, Functions, invoke, invoke_detached, await, get,
      set, throw, ret;
    no_put_tac.
Qed.

Lemma calls_keep f env ops s :
  (∀ op, op ∈ ops → no_put f (body (stack env) op)) →
  this (calls ops env s) !! f = this s !! f.
Proof.
  revert s. induction ops as [|op ops IH]; intros s Hops; simpl.
  - reflexivity.
  - rewrite IH.
    + unfold call. apply exec_start_no_put. apply Hops. constructor.
    + intros op' Hin. apply Hops. by constructor.
Qed.

(** ** Operations on the focused frame *)

(** The claim of C1 fails on the code.  On a controller with no frame
    focused, [clickFrame] fails with a TypeError, not with
    FrameNotResolvedError; and with a frame focused before a navigation,
    [clickFrame] after the navigation succeeds, on that frame. *)
Lemma frame_ops_not_FrameNotResolvedError :
  field ready "_frame" = null
  ∧ fst (call (ClickFrame (VStr "#ok")) sample_env ready) = Throw TypeError
  ∧ fst (call (ClickFrame (VStr "#ok")) sample_env ready)
    ≠ Throw FrameNotResolvedError
  ∧ let stale :=
      calls [FocusFrame (VStr "https://captcha.example");
             Goto (VStr "https://example.org/next") undefined]
        sample_env ready in
    fst (call (ClickFrame (VStr "#ok")) sample_env stale) = Ok undefined
    ∧ trace (snd (call (ClickFrame (VStr "#ok")) sample_env stale))
      = trace stale ++ [Method (VHost 4) "$" [VStr "#ok"];
                        Method (VHost 9) "click" []].
Proof.
  split; [reflexivity|]. split; [reflexivity|]. split.
  - intros H. discriminate H.
  - split; reflexivity.
Qed.

(** C1, amended.  A frame-scoped operation called with no frame focused
    fails with a TypeError, with no driver call made and the object as it
    was.  The controller keeps no epoch: operations other than [init],
    [focusFrame] and [focusFrameSelector] leave the focused frame as it is,
    and with a frame focused the operation makes its first driver call on
    that frame. *)
Theorem frame_ops_no_epoch env s op :
  frame_scoped op = true →
  (loose_null (field s "_frame") = true → call op env s = (Throw TypeError, s))
  ∧ (∀ ops, forallb (fun o => negb (assigns_frame o)) ops = true →
            field (calls ops env s) "_frame" = field s "_frame")
  ∧ (loose_null (field s "_frame") = false →
     ∃ name args rest,
       trace (snd (call op env s))
       = trace s ++ Method (field s "_frame") name args :: rest).
Proof.
  intros Hop. split; [|split].
  - intros Hnull. unfold call.
    destruct op; try discriminate; simpl;
      unfold typeFrame, clickFrame, selectFrame, invoke; simpl;
      rewrite Hnull; reflexivity.
  - intros ops Hops. unfold field. rewrite calls_keep; [reflexivity|].
    intros o Hin. apply body_keeps_frame.
    rewrite forallb_forall in Hops. apply list_elem_of_In in Hin.
    specialize (Hops o Hin). by destruct (assigns_frame o).
  - intros Hframe. unfold call.
    destruct op; try discriminate; simpl;
      unfold typeFrame, clickFrame, selectFrame, invoke, invoke_detached; simpl;
      rewrite Hframe; simpl.
    all: repeat first
      [ match goal with
        | |- context [driver ?e ?tr ?c] => destruct (driver e tr c); simpl
        | |- context [if loose_null ?v then _ else _] =>
            destruct (loose_null v); simpl
        end ].
    all: do 3 eexists; unfold log; simpl; rewrite <- ?app_assoc; simpl;
      reflexivity.
Qed.

Lemma frame_ops_no_epoch_witness :
  call (TypeFrame (VStr "#name") (VStr "Ada")) sample_env ready
  = (Throw TypeError, ready)
  ∧ let focused :=
      calls [FocusFrame (VStr "https://captcha.example")] sample_env ready in
    field (calls [Goto (VStr "https://example.org/next") undefined; GoBack]
             sample_env focused) "_frame" = VHost 4
    ∧ ∃ name args rest,
        trace (snd (call (TypeFrame (VStr "#name") (VStr "Ada")) sample_env focused))
        = trace focused ++ Method (VHost 4) name args :: rest.
Proof.
  split.
  - apply (frame_ops_no_epoch sample_env ready
             (TypeFrame (VStr "#name") (VStr "Ada"))); reflexivity.
  - intros focused.
    destruct (frame_ops_no_epoch sample_env focused
                (TypeFrame (VStr "#name") (VStr "Ada")) eq_refl)
      as (_ & Hkeep & Hcall).
    split.
    + apply (Hkeep [Goto (VStr "https://example.org/next") undefined; GoBack]).
      reflexivity.
    + apply Hcall. reflexivity.
Defined.

(** ** The frame given to the recaptcha solver *)

Lemma new_no_iframe identity endpoint env :
  this (new identity endpoint env) !! "_iframe" = None.
Proof.
  unfold new, constructor. simpl. by rewrite !lookup_insert_ne.
Qed.

(** C10.  No operation assigns the field [_iframe]; so on a controller made
    by the constructor, after any sequence of operations, the field reads
    [undefined], and [solveRecaptcha] hands [undefined] to
    [Functions.solveRecaptcha] as the frame, with the selector. *)
Theorem solveRecaptcha_undefined_frame env identity endpoint ops selector :
  let s := calls ops env (new identity endpoint env) in
  (∀ depth op, no_put "_iframe" (body depth op))
  ∧ field s "_iframe" = undefined
  ∧ trace (snd (call (SolveRecaptcha selector) env s))
    = trace s ++ [Func "solveRecaptcha" [undefined; selector]].
Proof.
  intros s.
  assert (Hundef : field s "_iframe" = undefined).
  { unfold field, s. rewrite calls_keep.
    - rewrite new_no_iframe. reflexivity.
    - intros op _. apply body_keeps_iframe. }
  split; [exact body_keeps_iframe|]. split; [exact Hundef|].
  unfold call. simpl. unfold solveRecaptcha. simpl. rewrite Hundef.
  reflexivity.
Qed.

Example solveRecaptcha_after_focus :
  let s := calls [Init undefined; FocusFrame (VStr "https://captcha.example")]
             sample_env (new (VObj []) undefined sample_env) in
  field s "_frame" = VHost 4
  ∧ trace (snd (call (SolveRecaptcha (VStr "#g-recaptcha")) sample_env s))
    = trace s ++ [Func "solveRecaptcha" [undefined; VStr "#g-recaptcha"]].
Proof. split; reflexivity. Qed.

(** ** Clicking and waiting for the navigation *)

Lemma field_log c s f : field (log c s) f = field s f.
Proof. reflexivity. Qed.

Section ClickAndWait.

Variables (s : St) (selector delay tap topRight doTrigger : Value).

Let page : Value := field s "_page".
Let click_call : Call := Method page "click" [selector].
Let nav_call : Call := Method page "waitForNavigation" [].
Let n : nat := length (trace s).

Lemma begin_clickAndWait :
  loose_null page = false →
  begin (clickAndWait selector delay tap topRight doTrigger) s
  = mkSys (TAll [TWait n settle_then_return; TWait (S n) settle_then_return]
             settle_then_return)
      [] (both_called s selector) [].
Proof.
  intros Hpage. unfold begin, clickAndWait, click, waitForNavigation, invoke.
  repeat progress (simpl; rewrite ?field_log; fold page; rewrite ?Hpage).
  rewrite length_app. simpl. rewrite Nat.add_1_r. reflexivity.
Qed.

Lemma begin_clickAndWait_no_page :
  loose_null page = true →
  begin (clickAndWait selector delay tap topRight doTrigger) s
  = mkSys (TDone (Throw TypeError)) [] s [].
Proof.
  intros Hpage. unfold begin, clickAndWait, click, waitForNavigation, invoke.
  repeat progress (simpl; rewrite ?field_log; fold page; rewrite ?Hpage).
  reflexivity.
Qed.

Lemma settle_thrown ev y e :
  root y = TDone (Throw e) → root (settle ev y) = TDone (Throw e).
Proof.
  intros Hroot. destruct y as [t ds s0 l], ev as [id r]. simpl in *. subst t.
  unfold settle. simpl.
  destruct (existsb (awaits id) ds); [|reflexivity].
  simpl. destruct (delivers id r ds s0) as [[ds' s2] os2]. reflexivity.
Qed.

Lemma settle_phase ev y :
  phase s selector y → phase s selector (settle ev y).
Proof.
  intros [Hroot Hdet Hst|v1 Hroot Hdet Hst H1|v2 Hroot Hdet Hst H2
         |v1 v2 Hroot Hdet Hst H1 H2|e Hroot];
    [| | | |by apply (thrown _ _ _ e), settle_thrown];
    destruct y as [t ds s0 l], ev as [id r]; simpl in *; subst; fold n.
  - unfold settle. simpl. rewrite !orb_false_r.
    destruct (Nat.eqb_spec id n) as [->|Hn];
      [|destruct (Nat.eqb_spec id (S n)) as [->|HSn]]; simpl.
    + replace (Nat.eqb n (S n)) with false by (symmetry; apply Nat.eqb_neq; lia).
      destruct r as [v|e]; simpl.
      * apply (click_done _ _ _ v); simpl; try reflexivity. set_solver.
      * apply (thrown _ _ _ e). reflexivity.
    + destruct r as [v|e]; simpl.
      * apply (nav_done _ _ _ v); simpl; try reflexivity. set_solver.
      * apply (thrown _ _ _ e). reflexivity.
    + apply both_pending; reflexivity.
  - unfold settle. simpl. rewrite !orb_false_r.
    destruct (Nat.eqb_spec id (S n)) as [->|HSn]; simpl.
    + destruct r as [v|e]; simpl.
      * apply (returned _ _ _ v1 v); simpl; try reflexivity; set_solver.
      * apply (thrown _ _ _ e). reflexivity.
    + apply (click_done _ _ _ v1); simpl; try reflexivity. exact H1.
  - unfold settle. simpl. rewrite !orb_false_r.
    destruct (Nat.eqb_spec id n) as [->|Hn]; simpl.
    + destruct r as [v|e]; simpl.
      * apply (returned _ _ _ v v2); simpl; try reflexivity; set_solver.
      * apply (thrown _ _ _ e). reflexivity.
    + apply (nav_done _ _ _ v2); simpl; try reflexivity. exact H2.
  - unfold settle. simpl. apply (returned _ _ _ v1 v2); auto.
Qed.

Lemma run_phase sched y :
  phase s selector y → phase s selector (run sched y).
Proof.
  revert y. induction sched as [|ev sched IH]; intros y Hy; simpl.
  - exact Hy.
  - apply IH, settle_phase, Hy.
Qed.

Lemma begin_phase :
  phase s selector (begin (clickAndWait selector delay tap topRight doTrigger) s).
Proof.
  destruct (loose_null page) eqn:Hpage.
  - rewrite begin_clickAndWait_no_page by exact Hpage.
    apply (thrown _ _ _ TypeError). reflexivity.
  - rewrite begin_clickAndWait by exact Hpage.
    apply both_pending; reflexivity.
Qed.

Lemma both_called_lookup :
  trace (both_called s selector) !! n = Some click_call
  ∧ trace (both_called s selector) !! S n = Some nav_call.
Proof.
  unfold both_called, log, n. simpl. split.
  - rewrite lookup_app_l by (rewrite length_app; simpl; lia).
    rewrite lookup_app_r by lia. by rewrite Nat.sub_diag.
  - rewrite lookup_app_r by (rewrite length_app; simpl; lia).
    rewrite length_app. simpl.
    by replace (S (length (trace s)) - (length (trace s) + 1)) with 0 by lia.
Qed.

(** C7.  [clickAndWait] makes the page's click and the page's
    navigation-wait one after the other when it is called, before either
    promise has settled, and then waits for both; and in whatever order and
    with whatever outcomes the driver settles promises, the call has
    returned only if both the click's promise and the navigation's promise
    have been fulfilled. *)
Theorem clickAndWait_returns_after_both sched v :
  let y0 := begin (clickAndWait selector delay tap topRight doTrigger) s in
  let y := run sched y0 in
  (loose_null page = false →
   trace (st y0) = trace s ++ [click_call; nav_call]
   ∧ settled y0 = []
   ∧ awaits n (root y0) = true ∧ awaits (S n) (root y0) = true)
  ∧ (root y = TDone (Ok v) →
     ∃ v1 v2, settled_call y click_call (Ok v1)
              ∧ settled_call y nav_call (Ok v2)).
Proof.
  intros y0 y. split.
  - intros Hpage. unfold y0. rewrite begin_clickAndWait by exact Hpage.
    simpl. rewrite !Nat.eqb_refl, !orb_true_r.
    unfold both_called, log. simpl. by rewrite <- app_assoc.
  - intros Hret. pose proof (run_phase sched y0 begin_phase) as Hphase.
    fold y in Hphase.
    destruct Hphase as [Hroot _ _|? Hroot _ _ _|? Hroot _ _ _
                       |v1 v2 Hroot _ Hst H1 H2|e Hroot];
      rewrite Hroot in Hret; try discriminate.
    destruct both_called_lookup as [Hc Hn].
    exists v1, v2. unfold settled_call. rewrite Hst.
    split; [exists n|exists (S n)]; split; assumption.
Qed.

End ClickAndWait.

Lemma clickAndWait_returns_after_both_witness :
  let y0 := begin (clickAndWait (VStr "#go") vtrue vfalse vfalse vfalse) ready in
  let y := run [(2, Ok undefined); (1, Ok undefined)] y0 in
  (trace (st y0)
   = trace ready ++ [Method (VHost 1) "click" [VStr "#go"];
                     Method (VHost 1) "waitForNavigation" []]
   ∧ settled y0 = []
   ∧ awaits 1 (root y0) = true ∧ awaits 2 (root y0) = true)
  ∧ root y = TDone (Ok undefined)
  ∧ ∃ v1 v2,
      settled_call y (Method (VHost 1) "click" [VStr "#go"]) (Ok v1)
      ∧ settled_call y (Method (VHost 1) "waitForNavigation" []) (Ok v2).
Proof.
  intros y0 y.
  destruct (clickAndWait_returns_after_both ready (VStr "#go") vtrue vfalse
              vfalse vfalse [(2, Ok undefined); (1, Ok undefined)] undefined)
    as [Hcalled Hreturned].
  split; [apply Hcalled; reflexivity|].
  split; [reflexivity|]. apply Hreturned. reflexivity.
Defined.

(** With the click's promise fulfilled and the navigation's still pending,
    the call has not returned; once the navigation's promise is rejected,
    the call throws. *)
Example clickAndWait_pending_navigation :
  let y0 := begin (clickAndWait (VStr "#go") vtrue vfalse vfalse vfalse) ready in
  is_done (root (run [(1, Ok undefined)] y0)) = false
  ∧ root (run [(1, Ok undefined); (2, Throw (Err "TimeoutError"))] y0)
    = TDone (Throw (Err "TimeoutError")).
Proof. split; reflexivity. Qed.

(** The run of [exec] is the schedule in which the click's promise settles
    first and the navigation's second. *)
Lemma clickAndWait_exec_run env s selector delay tap topRight doTrigger :
  loose_null (field s "_page") = false →
  let s0 := both_called s selector in
  let n := length (trace s) in
  let r1 := driver env (trace s0) (Method (field s "_page") "click" [selector]) in
  let r2 := driver env (trace s0) (Method (field s "_page") "waitForNavigation" []) in
  let y := run [(n, r1); (S n, r2)]
             (begin (clickAndWait selector delay tap topRight doTrigger) s) in
  exec (clickAndWait selector delay tap topRight doTrigger) env s
  = (match root y with TDone r => r | _ => Ok undefined end, st y)
  ∧ is_done (root y) = true.
Proof.
  intros Hpage s0 n r1 r2 y. unfold y.
  rewrite begin_clickAndWait by exact Hpage.
  unfold clickAndWait, click, waitForNavigation, invoke.
  repeat progress (simpl; rewrite ?field_log, ?Hpage).
  subst r1 r2 s0 n. unfold both_called, log. simpl.
  rewrite !Nat.eqb_refl.
  replace (Nat.eqb (length (trace s)) (S (length (trace s)))) with false
    by (symmetry; apply Nat.eqb_neq; lia).
  simpl.
  destruct (driver env _ (Method _ "click" _)); simpl;
    rewrite ?Nat.eqb_refl; simpl;
    destruct (driver env _ (Method _ "waitForNavigation" _)); simpl;
    split; reflexivity.
Qed.

(* ================================================================== *)
(** * Further properties of the controller *)

(** ** The fields an operation assigns *)

Lemma body_assigns depth op f : f ∉ assigned op → no_put f (body depth op).
Proof.
  intros Hf.
  assert (Hne : ∀ g, g ∈ assigned op → g ≠ f) by (intros g Hg ->; auto).
  destruct op; simpl in *;
    try (rewrite type_body; exact I);
    unfold init, focusFrame, focusFrameSelector,
      typeFrame, typeEnter, typeTab, typeEsc, click, clickAndWait,
      clickFrame, clickFrameAndWait, hover, waitForSelector, select,
      selectFrame, goto, randomWait, waitForNavigation, logScreenshot,
      isSelectorVisible, scrollToSelector, scrollToBottom, scrollUp,
      scrollDown, setValue, deactivateLink, getHref, getRandomTime,
      getRandomNumber, getRandomBoolean, goBack, getPage, getFrame,
      getIdentity, solveCaptcha, solveRecaptcha, click, waitForNavigation,
      clickFrame, Promise_all, Functions, invoke, invoke_detached, await, get,
      set, throw, ret;
    repeat first
      [ no_put_step
      | match goal with
        | |- _ ≠ f => apply Hne; repeat constructor
        end ].
Qed.

(** X1.  An operation leaves every field alone that is not among the ones it
    assigns: [init] assigns [_page], [_frame], [_pages] and [_browser],
    [focusFrame] and [focusFrameSelector] assign [_frame], and no other
    operation assigns any field, whatever its outcome. *)
Theorem call_assigns_only env s op f :
  f ∉ assigned op → this (snd (call op env s)) !! f = this s !! f.
Proof.
  intros Hf. unfold call. apply exec_start_no_put, body_assigns, Hf.
Qed.

Lemma call_assigns_only_witness :
  this (snd (call (Init undefined) sample_env ready)) !! "_identity"
  = this ready !! "_identity".
Proof.
  apply (call_assigns_only sample_env ready (Init undefined) "_identity").
  simpl. intros H. repeat (apply elem_of_cons in H as [H|H]; [discriminate|]).
  by apply elem_of_nil in H.
Defined.

Lemma calls_keep_unassigned f env ops s :
  (∀ op, op ∈ ops → f ∉ assigned op) →
  field (calls ops env s) f = field s f.
Proof.
  intros Hops. unfold field. rewrite calls_keep; [reflexivity|].
  intros op Hin. apply body_assigns, Hops, Hin.
Qed.

Lemma not_in_assigned_init f op :
  f ∈ ["_page"; "_pages"; "_browser"] → is_init op = false → f ∉ assigned op.
Proof.
  intros Hf Hop Hin. destruct op; simpl in *; try discriminate;
    try (by apply elem_of_nil in Hin);
    apply list_elem_of_singleton in Hin; subst f;
    repeat (apply elem_of_cons in Hf as [Hf|Hf]; [discriminate|]);
    by apply elem_of_nil in Hf.
Qed.

(** X2.  The identity and the endpoint given to the constructor stay for the life
    of the controller: after any sequence of operations [getIdentity] gives
    the identity back and [_endpoint] is the endpoint, or [null] when none
    was given.  The page, the browser and the list of pages stay until the
    next [init]. *)
Theorem session_fields_stable env identity endpoint ops ops' :
  forallb (fun op => negb (is_init op)) ops' = true →
  let s := calls ops env (new identity endpoint env) in
  let s' := calls ops' env s in
  call GetIdentity env s = (Ok identity, s)
  ∧ field s "_endpoint" = dflt endpoint null
  ∧ field s' "_page" = field s "_page"
  ∧ field s' "_browser" = field s "_browser"
  ∧ field s' "_pages" = field s "_pages".
Proof.
  intros Hops' s s'.
  assert (Hfix : ∀ f, f ∈ ["_identity"; "_endpoint"] →
                      field s f = field (new identity endpoint env) f).
  { intros f Hf. apply calls_keep_unassigned. intros op _ Hin.
    destruct op; simpl in Hin;
      repeat (apply elem_of_cons in Hin as [Hin|Hin];
              [subst f; repeat (apply elem_of_cons in Hf as [Hf|Hf];
                                [discriminate|]);
               by apply elem_of_nil in Hf|]);
      by apply elem_of_nil in Hin. }
  assert (Hstay : ∀ f, f ∈ ["_page"; "_pages"; "_browser"] →
                       field s' f = field s f).
  { intros f Hf. apply calls_keep_unassigned. intros op Hin.
    apply not_in_assigned_init; [exact Hf|].
    rewrite forallb_forall in Hops'. apply list_elem_of_In in Hin.
    specialize (Hops' op Hin). by destruct (is_init op). }
  split; [|split; [|split; [|split]]].
  - unfold call. simpl. unfold getIdentity, get. simpl.
    rewrite Hfix by (repeat constructor). reflexivity.
  - rewrite Hfix by (repeat constructor). reflexivity.
  - apply Hstay. repeat constructor.
  - apply Hstay. repeat constructor.
  - apply Hstay. repeat constructor.
Qed.

Lemma session_fields_stable_witness :
  let s := calls [Init undefined; Click (VStr "#a") undefined undefined undefined undefined]
             sample_env (new (VStr "alice") undefined sample_env) in
  let s' := calls [FocusFrame (VStr "https://captcha.example"); GoBack] sample_env s in
  call GetIdentity sample_env s = (Ok (VStr "alice"), s)
  ∧ field s "_endpoint" = null
  ∧ field s' "_page" = field s "_page"
  ∧ field s' "_browser" = field s "_browser"
  ∧ field s' "_pages" = field s "_pages".
Proof.
  apply (session_fields_stable sample_env (VStr "alice") undefined
           [Init undefined; Click (VStr "#a") undefined undefined undefined undefined]
           [FocusFrame (VStr "https://captcha.example"); GoBack]).
  reflexivity.
Defined.

(** ** Calls on a controller without a page *)

Ltac unfold_bodies :=
  unfold init, focusFrame, focusFrameSelector,
    typeFrame, typeEnter, typeTab, typeEsc, click, clickAndWait,
    clickFrame, clickFrameAndWait, hover, waitForSelector, select,
    selectFrame, goto, randomWait, waitForNavigation, logScreenshot,
    isSelectorVisible, scrollToSelector, scrollToBottom, scrollUp,
    scrollDown, setValue, deactivateLink, getHref, getRandomTime,
    getRandomNumber, getRandomBoolean, goBack, getPage, getFrame,
    getIdentity, solveCaptcha, solveRecaptcha, click, waitForNavigation,
    clickFrame, Promise_all, Functions, invoke, invoke_detached, await, get,
    set, throw, ret.

(** X3.  An operation that calls a method of the page, called while [_page] is
    [null] (as the constructor leaves it) or [undefined], fails with a
    TypeError; no driver call is made and the object is as it was. *)
Theorem page_ops_need_page env s op :
  on_page op = true →
  loose_null (field s "_page") = true →
  call op env s = (Throw TypeError, s).
Proof.
  intros Hop Hpage. unfold call.
  destruct op; try discriminate; simpl; unfold_bodies; simpl;
    rewrite ?Hpage; simpl; rewrite ?Hpage; reflexivity.
Qed.

Lemma page_ops_need_page_witness :
  call (ClickAndWait (VStr "#go") undefined undefined undefined undefined)
    sample_env (new (VObj []) undefined sample_env)
  = (Throw TypeError, new (VObj []) undefined sample_env).
Proof.
  apply (page_ops_need_page sample_env (new (VObj []) undefined sample_env)
           (ClickAndWait (VStr "#go") undefined undefined undefined undefined));
    reflexivity.
Defined.

(** X4.  An operation that goes through a helper of [Functions] makes no check of
    the page: its first driver call is the helper's, with [this._page] as it
    is, [null] included, as first argument. *)
Theorem helper_ops_pass_page env s op :
  via_helper op = true →
  ∃ name args rest,
    trace (snd (call op env s))
    = trace s ++ Func name (field s "_page" :: args) :: rest.
Proof.
  intros Hop. unfold call.
  destruct op; try discriminate; simpl; unfold_bodies; simpl;
    repeat match goal with
           | |- context [driver ?e ?tr ?c] => destruct (driver e tr c); simpl
           | |- context [if ?b then _ else _] => destruct b; simpl
           end;
    do 3 eexists; unfold log; simpl; rewrite <- ?app_assoc; simpl; reflexivity.
Qed.

Lemma helper_ops_pass_page_witness :
  ∃ name args rest,
    trace (snd (call TypeEnter sample_env (new (VObj []) undefined sample_env)))
    = [] ++ Func name (null :: args) :: rest.
Proof.
  apply (helper_ops_pass_page sample_env (new (VObj []) undefined sample_env)
           TypeEnter).
  reflexivity.
Defined.

(** ** Failed calls *)

Lemma prop_throws o k e : prop o k = Throw e → e = TypeError.
Proof.
  destruct o; simpl; intros H; congruence.
Qed.

(** X5.  A call that throws leaves the object as it was: [init] assigns its four
    fields only once the helper has given it an object, and the two
    operations that focus a frame assign [_frame] only when nothing can fail
    any more. *)
Theorem failed_call_keeps_object env s op e :
  fst (call op env s) = Throw e → this (snd (call op env s)) = this s.
Proof.
  intros Hthrow.
  assert (Hother : assigned op = [] → this (snd (call op env s)) = this s).
  { intros Hnone. apply map_eq. intros f. apply call_assigns_only.
    rewrite Hnone. apply not_elem_of_nil. }
  destruct op; try (apply Hother; reflexivity); clear Hother;
    revert Hthrow; unfold call; simpl; unfold_bodies; simpl.
  - destruct (driver env _ _) as [o|e0]; simpl; [|reflexivity].
    destruct (prop o "page") as [page|e0] eqn:Hpage; simpl; [|reflexivity].
    destruct (prop_ok_not_null o "page" page Hpage "browser") as [b Hb].
    rewrite Hb. simpl. discriminate.
  - destruct (driver env _ _) as [frame|e0]; simpl; [|reflexivity].
    destruct (loose_null frame); simpl; [reflexivity|discriminate].
  - destruct (loose_null (field s "_page")); simpl; [reflexivity|].
    destruct (driver env _ _) as [handle|e0]; simpl; [|reflexivity].
    destruct (strict_null handle); simpl; [reflexivity|].
    destruct (loose_null handle); simpl; [reflexivity|].
    destruct (driver env _ _) as [frame|e0]; simpl; [discriminate|reflexivity].
Qed.

Lemma failed_call_keeps_object_witness :
  this (snd (call (Click (VStr "#menu") undefined undefined undefined undefined)
               sample_env ready))
  = this ready.
Proof.
  apply (failed_call_keeps_object sample_env ready
           (Click (VStr "#menu") undefined undefined undefined undefined)
           (Err "Error")).
  reflexivity.
Defined.

(** ** Where the errors of a call come from *)

Lemma all_result_throws E rs e :
  Forall (fun r => ∀ e, r = Throw e → E e) rs →
  all_result rs = Throw e → E e.
Proof.
  unfold all_result. intros Hrs.
  induction Hrs as [|r rs Hr _ IH]; simpl; [discriminate|].
  destruct r as [v|e0]; simpl.
  - destruct (all_outcome rs) as [vs|e1]; simpl in *; [discriminate|].
    intros H. apply IH. exact H.
  - intros H. apply Hr. congruence.
Qed.

Lemma finish_throws_in E env rests s :
  Forall (throws_in E env) rests →
  Forall (fun r => ∀ e, r = Throw e → E e) (fst (finish env rests s)).
Proof.
  intros H. revert s. induction H as [|rest rests Hrest _ IH]; intros s; simpl.
  - constructor.
  - specialize (Hrest s). destruct (rest env s) as [r s'].
    specialize (IH s'). destruct (finish env rests s') as [rs s''].
    simpl in *. constructor; [|exact IH]. intros e ->. apply Hrest. reflexivity.
Qed.

Lemma exec_start_relays E env p :
  (∀ tr c e, driver env tr c = Throw e → E e) →
  relays E p →
  throws_in E env (exec p) ∧ ∀ s, throws_in E env (fst (start p env s)).
Proof.
  intros Hdriver.
  induction p as [r|g k IH|g v k IH|c k IH|c k IH|ps k IHps IHk]
    using Prog_induction; simpl; intros Hp.
  - split; [|intros _]; intros s e; simpl; intros ->; exact Hp.
  - split.
    + intros s e. apply (IH _ (Hp _)).
    + intros s. apply (IH _ (Hp _)).
  - destruct (IH Hp) as [IHe IHs]. split.
    + intros s e. apply IHe.
    + intros s. apply IHs.
  - assert (Hk : ∀ tr, throws_in E env (exec (k (driver env tr c)))).
    { intros tr. apply IH, Hp. intros e He. eapply Hdriver, He. }
    split.
    + intros s e. apply Hk.
    + intros s s' e. simpl. apply Hk.
  - destruct (IH Hp) as [IHe IHs]. split.
    + intros s e. apply IHe.
    + intros s. apply IHs.
  - destruct Hp as [Hps Hk].
    assert (Hstarts : ∀ s, Forall (throws_in E env) (fst (starts env ps s))).
    { clear IHk Hk k.
      induction IHps as [|p ps Hhd _ IHtl]; intros s; simpl.
      - constructor.
      - destruct Hps as [Hp Hps]. destruct (Hhd Hp) as [_ Hs].
        specialize (Hs s). destruct (start p env s) as [rest s'].
        specialize (IHtl Hps s'). destruct (starts env ps s') as [rests s''].
        simpl in *. constructor; assumption. }
    assert (Hgo : ∀ rests s, Forall (throws_in E env) rests →
      ∀ e, fst (let '(rs, s2) := finish env rests s in
                exec (k (all_result rs)) env s2) = Throw e → E e).
    { intros rests s Hrests e.
      pose proof (finish_throws_in E env rests s Hrests) as Hrs.
      destruct (finish env rests s) as [rs s2]. simpl in Hrs.
      apply IHk, Hk. intros e' He'. eapply all_result_throws; eassumption. }
    split.
    + intros s e. rewrite starts_unfold. specialize (Hstarts s).
      destruct (starts env ps s) as [rests s1]. apply Hgo, Hstarts.
    + intros s. rewrite starts_unfold. specialize (Hstarts s).
      destruct (starts env ps s) as [rests s1]. simpl.
      intros s' e. apply Hgo, Hstarts.
Qed.

Ltac relays_step E :=
  first
    [ progress simpl
    | match goal with
      | |- E TypeError => assumption
      | |- E RangeError => assumption
      | H : ∀ e, Throw ?x = Throw e → E e |- E ?x => apply H; reflexivity
      | H : prop _ _ = Throw ?x |- E ?x =>
          apply prop_throws in H; subst x; assumption
      | |- True => exact I
      | |- _ ∧ _ => split
      | |- ∀ _, _ => intro
      | |- context [match prop ?o ?k with Ok _ => _ | Throw _ => _ end] =>
          destruct (prop o k) eqn:?
      | |- context [Ret (prop ?o ?k)] => destruct (prop o k) eqn:?
      | |- context [match ?r with Ok _ => _ | Throw _ => _ end] => destruct r
      | |- context [if ?b then _ else _] => destruct b
      end ].

Lemma body_relays E depth op :
  E TypeError → E RangeError → relays E (body depth op).
Proof.
  intros HT HR.
  destruct op; simpl;
    try (rewrite type_body; exact HR);
    unfold_bodies; repeat relays_step E.
Qed.

(** X6.  The errors of a call are the driver's: an operation that throws either
    throws an error with which the driver rejected some call, unchanged, or
    a TypeError or (for [type]) a RangeError of its own. *)
Theorem call_errors_relayed env s op e :
  fst (call op env s) = Throw e → relayed env e.
Proof.
  unfold call.
  apply (exec_start_relays (relayed env) env (body (stack env) op)).
  - intros tr c e' He'. right; right. eauto.
  - apply body_relays; [by left|by right; left].
Qed.

Lemma call_errors_relayed_witness :
  relayed sample_env (Err "ElementNotFoundError").
Proof.
  apply (call_errors_relayed sample_env ready
           (WaitForSelector (VStr "#footer") vtrue)).
  reflexivity.
Defined.

(** ** What a call returns *)

(** X7.  The operations written [return await Functions....] or
    [return Functions....] make one helper call and give its outcome as it
    is, value or error. *)
Theorem helper_value_returned env s op :
  returns_helper_value op = true →
  ∃ c, trace (snd (call op env s)) = trace s ++ [c]
       ∧ fst (call op env s) = driver env (trace s ++ [c]) c.
Proof.
  unfold call. intros Hop.
  destruct op; try discriminate; simpl; unfold_bodies; simpl;
    eexists; (split; [reflexivity|]);
    match goal with
    | |- context [driver ?e ?tr ?c] => destruct (driver e tr c); reflexivity
    end.
Qed.

Lemma helper_value_returned_witness :
  ∃ c, trace (snd (call (IsSelectorVisible (VStr "#a")) sample_env ready))
       = trace ready ++ [c]
       ∧ fst (call (IsSelectorVisible (VStr "#a")) sample_env ready)
         = driver sample_env (trace ready ++ [c]) c.
Proof.
  apply (helper_value_returned sample_env ready (IsSelectorVisible (VStr "#a"))).
  reflexivity.
Defined.

(** X8.  An operation with no [return] gives [undefined] whenever it succeeds:
    what its helper or the page gave is dropped. *)
Theorem void_ops_return_undefined env s op v :
  returns_helper_value op = false →
  returns_own_value op = false →
  fst (call op env s) = Ok v → v = undefined.
Proof.
  unfold call. intros Hhelper Hop.
  destruct op; try discriminate; simpl;
    try (rewrite type_body; discriminate);
    unfold_bodies; simpl;
    repeat match goal with
           | |- context [driver ?e ?tr ?c] => destruct (driver e tr c); simpl
           | |- context [prop ?o ?k] => destruct (prop o k); simpl
           | |- context [if ?b then _ else _] => destruct b; simpl
           end;
    intros H; congruence.
Qed.

Lemma void_ops_return_undefined_witness :
  undefined = undefined.
Proof.
  apply (void_ops_return_undefined sample_env ready
           (Select (VStr "#country") (VStr "DE")) undefined); reflexivity.
Defined.

(** ** Focusing a frame by selector *)

(** X9.  [focusFrameSelector] on a page: when the page has no element for the
    selector it returns false and the focused frame stays; when the element
    is there, the frame that its [contentFrame] gives becomes the focused
    frame, and the result tells whether it is other than [null], so that an
    element without a content frame replaces the focused frame by [null]. *)
Theorem focusFrameSelector_outcomes env s selector handle :
  loose_null (field s "_page") = false →
  driver env (trace s ++ [Method (field s "_page") "$" [selector]])
    (Method (field s "_page") "$" [selector]) = Ok handle →
  let s1 := log (Method (field s "_page") "$" [selector]) s in
  (handle = null →
   exec (focusFrameSelector selector) env s = (Ok vfalse, s1))
  ∧ (loose_null handle = false →
     ∀ frame,
       driver env (trace s1 ++ [Method handle "contentFrame" []])
         (Method handle "contentFrame" []) = Ok frame →
       exec (focusFrameSelector selector) env s
       = (Ok (VBool (negb (strict_null frame))),
          assign "_frame" frame (log (Method handle "contentFrame" []) s1))).
Proof.
  intros Hpage Hquery s1. unfold focusFrameSelector, invoke. simpl.
  rewrite Hpage. simpl. rewrite Hquery. simpl. split.
  - intros ->. reflexivity.
  - intros Hhandle frame Hframe.
    assert (Hstrict : strict_null handle = false) by (by destruct handle).
    rewrite Hstrict, Hhandle. simpl. fold s1. rewrite Hframe. simpl.
    rewrite field_assign_eq. reflexivity.
Qed.

Lemma focusFrameSelector_outcomes_witness :
  let s1 := log (Method (VHost 1) "$" [VStr "div"]) focused in
  (VHost 6 = null →
   exec (focusFrameSelector (VStr "div")) page_env focused = (Ok vfalse, s1))
  ∧ (loose_null (VHost 6) = false →
     ∀ frame,
       driver page_env (trace s1 ++ [Method (VHost 6) "contentFrame" []])
         (Method (VHost 6) "contentFrame" []) = Ok frame →
       exec (focusFrameSelector (VStr "div")) page_env focused
       = (Ok (VBool (negb (strict_null frame))),
          assign "_frame" frame (log (Method (VHost 6) "contentFrame" []) s1))).
Proof.
  apply (focusFrameSelector_outcomes page_env focused (VStr "div") (VHost 6));
    reflexivity.
Defined.

(** An element without a content frame: the call returns false and the
    frame focused before is gone. *)
Example focusFrameSelector_clears_focus :
  field focused "_frame" = VHost 4
  ∧ fst (exec (focusFrameSelector (VStr "div")) page_env focused) = Ok vfalse
  ∧ field (snd (exec (focusFrameSelector (VStr "div")) page_env focused)) "_frame"
    = null
  ∧ fst (exec (focusFrameSelector (VStr "p")) page_env focused) = Ok vfalse
  ∧ field (snd (exec (focusFrameSelector (VStr "p")) page_env focused)) "_frame"
    = VHost 4.
Proof. repeat split; reflexivity. Qed.

(** ** Focusing and reading the frame back *)



(** ** The first call of a controller *)

(** X11.  [init] on a controller fresh from the constructor makes one driver call,
    [Functions.init], with the Puppeteer module, the endpoint given to the
    constructor ([null] when none was) and the executable path (the empty
    string when none is given); when the helper gives nothing back
    ([null] or [undefined]) the call fails with a TypeError. *)
Theorem init_after_new env identity endpoint executablePath :
  let s := new identity endpoint env in
  let c := Func "init" [Puppeteer; dflt endpoint null;
                        dflt executablePath (VStr "")] in
  trace (snd (call (Init executablePath) env s)) = [c]
  ∧ ∀ o, driver env [c] c = Ok o → loose_null o = true →
         fst (call (Init executablePath) env s) = Throw TypeError.
Proof.
  intros s c. unfold call. simpl. unfold init, Functions, await. simpl.
  assert (Hend : field s "_endpoint" = dflt endpoint null).
  { unfold s, new, constructor, field. simpl.
    rewrite !lookup_insert_ne by done. by rewrite lookup_insert_eq. }
  assert (Htr : trace s = []) by reflexivity.
  rewrite Hend, ?Htr. simpl. fold c. split.
  - destruct (driver env [c] c) as [o|e]; simpl; [|reflexivity].
    destruct (prop o "page") as [page|e] eqn:Hpage; simpl; [|reflexivity].
    destruct (prop_ok_not_null o "page" page Hpage "browser") as [b Hb].
    rewrite Hb. reflexivity.
  - intros o Ho Hnull. rewrite Ho. simpl. by destruct o.
Qed.

(** ** Operations in a frame *)

(** X12.  [clickFrame] with a frame focused looks the element up in the frame.
    When the frame has no such element the call fails with a TypeError;
    otherwise it makes the element's click and returns without waiting for
    it: the outcome of the click, failure included, never reaches the
    caller. *)
Theorem clickFrame_does_not_wait env s selector element :
  loose_null (field s "_frame") = false →
  driver env (trace s ++ [Method (field s "_frame") "$" [selector]])
    (Method (field s "_frame") "$" [selector]) = Ok element →
  let s1 := log (Method (field s "_frame") "$" [selector]) s in
  exec (clickFrame selector) env s
  = if loose_null element then (Throw TypeError, s1)
    else (Ok undefined, log (Method element "click" []) s1).
Proof.
  intros Hframe Hquery s1. unfold clickFrame, invoke, invoke_detached. simpl.
  rewrite Hframe. simpl. rewrite Hquery. simpl.
  destruct (loose_null element); reflexivity.
Qed.

Lemma clickFrame_does_not_wait_witness :
  exec (clickFrame (VStr "#missing")) page_env focused
  = (Throw TypeError, log (Method (VHost 4) "$" [VStr "#missing"]) focused).
Proof.
  apply (clickFrame_does_not_wait page_env focused (VStr "#missing") null);
    reflexivity.
Defined.

(** X13.  [typeFrame] with a frame focused and the element found makes three
    driver calls in this order: the lookup, the element's click (not waited
    for) and the element's [type]; its outcome is that of [type], an error
    as it is and a value as [undefined]. *)
Theorem typeFrame_calls env s selector text element :
  loose_null (field s "_frame") = false →
  driver env (trace s ++ [Method (field s "_frame") "$" [selector]])
    (Method (field s "_frame") "$" [selector]) = Ok element →
  loose_null element = false →
  let tr := trace s ++ [Method (field s "_frame") "$" [selector];
                        Method element "click" [];
                        Method element "type" [text]] in
  trace (snd (exec (typeFrame selector text) env s)) = tr
  ∧ fst (exec (typeFrame selector text) env s)
    = match driver env tr (Method element "type" [text]) with
      | Ok _ => Ok undefined
      | Throw e => Throw e
      end.
Proof.
  intros Hframe Hquery Helement tr.
  unfold typeFrame, invoke, invoke_detached. simpl.
  rewrite Hframe. simpl. rewrite Hquery. simpl. rewrite Helement. simpl.
  unfold tr. rewrite <- !app_assoc. simpl.
  match goal with
  | |- context [driver env ?t (Method element "type" [text])] =>
      destruct (driver env t (Method element "type" [text]))
  end; simpl; rewrite <- !app_assoc; split; reflexivity.
Qed.

Lemma typeFrame_calls_witness :
  let tr := trace focused ++ [Method (VHost 4) "$" [VStr "#name"];
                              Method (VHost 9) "click" [];
                              Method (VHost 9) "type" [VStr "Ada"]] in
  trace (snd (exec (typeFrame (VStr "#name") (VStr "Ada")) page_env focused)) = tr
  ∧ fst (exec (typeFrame (VStr "#name") (VStr "Ada")) page_env focused)
    = match driver page_env tr (Method (VHost 9) "type" [VStr "Ada"]) with
      | Ok _ => Ok undefined
      | Throw e => Throw e
      end.
Proof.
  apply (typeFrame_calls page_env focused (VStr "#name") (VStr "Ada") (VHost 9));
    reflexivity.
Defined.

(** X14.  [clickFrameAndWait] with a page and a focused frame starts the lookup of
    the element and the page's navigation-wait before anything else, so the
    element's click is made with the navigation-wait already under way; the
    calls are the lookup, the navigation-wait and the click, in this
    order. *)
Theorem clickFrameAndWait_order env s selector element :
  loose_null (field s "_frame") = false →
  loose_null (field s "_page") = false →
  let lookup := Method (field s "_frame") "$" [selector] in
  let nav := Method (field s "_page") "waitForNavigation" [] in
  driver env (trace s ++ [lookup; nav]) lookup = Ok element →
  loose_null element = false →
  trace (snd (exec (clickFrameAndWait selector) env s))
  = trace s ++ [lookup; nav; Method element "click" []].
Proof.
  intros Hframe Hpage lookup nav Hquery Helement.
  unfold clickFrameAndWait, clickFrame, Promise_all, invoke, invoke_detached.
  repeat progress (simpl; rewrite ?field_log, ?Hframe, ?Hpage).
  rewrite <- !app_assoc. simpl. fold lookup nav. rewrite Hquery. simpl.
  rewrite Helement. simpl.
  destruct (driver env _ nav); simpl; rewrite <- !app_assoc; reflexivity.
Qed.

Lemma clickFrameAndWait_order_witness :
  trace (snd (exec (clickFrameAndWait (VStr "#go")) page_env focused))
  = trace focused ++ [Method (VHost 4) "$" [VStr "#go"];
                      Method (VHost 1) "waitForNavigation" [];
                      Method (VHost 9) "click" []].
Proof.
  apply (clickFrameAndWait_order page_env focused (VStr "#go") (VHost 9));
    reflexivity.
Defined.

(** ** Scrolling to the bottom *)

(** X15.  [scrollToBottom] asks [Functions.getBottomSelector] for the selector of
    the last element and, when it has one, calls [Functions.scrollDown] with
    the page and that selector, and no other argument; when the first helper
    fails, so does the call, with no scrolling. *)
Theorem scrollToBottom_calls env s :
  let ask := Func "getBottomSelector" [field s "_page"] in
  match driver env (trace s ++ [ask]) ask with
  | Ok bottomSelector =>
      trace (snd (exec scrollToBottom env s))
      = trace s ++ [ask; Func "scrollDown" [field s "_page"; bottomSelector]]
  | Throw e => exec scrollToBottom env s = (Throw e, log ask s)
  end.
Proof.
  intros ask. unfold scrollToBottom, Functions, await. simpl. fold ask.
  destruct (driver env (trace s ++ [ask]) ask) as [b|e]; simpl; [|reflexivity].
  rewrite field_log.
  match goal with
  | |- context [driver env ?t ?c] => destruct (driver env t c)
  end; simpl; rewrite <- app_assoc; reflexivity.
Qed.

(** ** A rejection while clicking and waiting *)

Lemma run_thrown sched y e :
  root y = TDone (Throw e) → root (run sched y) = TDone (Throw e).
Proof.
  revert y. induction sched as [|ev sched IH]; intros y Hy; simpl.
  - exact Hy.
  - apply IH, settle_thrown, Hy.
Qed.

(** X16.  [clickAndWait] fails as soon as one of its two promises is rejected:
    when the first promise to settle is the click's or the navigation's and
    it is rejected, the call has thrown that error, with the other promise
    still pending, and whatever settles later changes nothing. *)
Theorem clickAndWait_first_rejection
    s selector delay tap topRight doTrigger id e sched :
  loose_null (field s "_page") = false →
  id = length (trace s) ∨ id = S (length (trace s)) →
  let y0 := begin (clickAndWait selector delay tap topRight doTrigger) s in
  root (run ((id, Throw e) :: sched) y0) = TDone (Throw e)
  ∧ unfinished (detached (settle (id, Throw e) y0)) ≠ [].
Proof.
  intros Hpage Hid y0. unfold y0.
  rewrite begin_clickAndWait by exact Hpage. simpl.
  assert (Hne : Nat.eqb (length (trace s)) (S (length (trace s))) = false)
    by (apply Nat.eqb_neq; lia).
  assert (Hne' : Nat.eqb (S (length (trace s))) (length (trace s)) = false)
    by (apply Nat.eqb_neq; lia).
  destruct Hid as [->| ->]; unfold settle; cbn -[Nat.eqb];
    rewrite ?Nat.eqb_refl, ?Hne, ?Hne'; cbn -[Nat.eqb];
    (split; [apply run_thrown; reflexivity|discriminate]).
Qed.

Lemma clickAndWait_first_rejection_witness :
  let y0 := begin (clickAndWait (VStr "#go") vtrue vfalse vfalse vfalse) ready in
  root (run [(2, Throw (Err "TimeoutError")); (1, Ok undefined)] y0)
  = TDone (Throw (Err "TimeoutError"))
  ∧ unfinished (detached (settle (2, Throw (Err "TimeoutError")) y0)) ≠ [].
Proof.
  apply (clickAndWait_first_rejection ready (VStr "#go") vtrue vfalse vfalse
           vfalse 2 (Err "TimeoutError") [(1, Ok undefined)]).
  - reflexivity.
  - right. reflexivity.
Defined.

(** ** What the module exports *)

(** X17.  When loading the module succeeds, what it exports is the value of a
    global named [Controller], not the class that the file declares. *)
Theorem load_module_exports_global require globals exports :
  load_module require globals = Ok exports →
  globals !! "Controller" = Some exports.
Proof.
  unfold load_module.
  destruct (require "../include/functions") as [fs|e]; simpl; [|discriminate].
  destruct (require "puppeteer") as [pp|e]; simpl; [|discriminate].
  unfold lookup_ident. rewrite !lookup_insert_ne by done. rewrite lookup_empty.
  destruct (globals !! "Controller") as [v|]; simpl; congruence.
Qed.

Lemma load_module_exports_global_witness :
  ({["Controller" := VClass "Controller"]} : gmap string Value) !! "Controller"
  = Some (VClass "Controller").
Proof.
  apply (load_module_exports_global (fun path => Ok (VModule path))
           {["Controller" := VClass "Controller"]} (VClass "Controller")).
  reflexivity.
Defined.
